(** * Conduit helpers: the parameter encoder and the request dispatcher

    A shallow embedding of [ConduitBase] from [utilities/src/conduit.py]
    ([_build], [_encode_list], [_encode_dict], [_encode], [_go], [_execute])
    and the properties of the wire format it produces. *)

From stdpp Require Import base option list strings pretty gmap.

Set Warnings "-register-all".

(** ** Python values

    The values that reach the encoder and that come back from [json.loads].
    A [dict] keeps its insertion order, so it is an association list; the
    functions below never create a duplicate key. A number is an [int]: no
    function here looks inside a number, it can only be passed on or be
    refused as a non-string. *)

Inductive value : Type :=
| VNone
| VBool (b : bool)
| VInt (z : Z)
| VStr (s : string)
| VList (vs : list value)
| VDict (kvs : list (string * value)).

(** ** Exceptions *)

Inductive exn : Type :=
| Exception (arg : value)      (* raise Exception(arg) *)
| TypeError                    (* str + non-str, iterating or len() of a non-container *)
| KeyError (key : string)      (* d[key] on a dict without key *)
| CurlError                    (* pycurl.error from curl.perform() *)
| JSONDecodeError              (* json.loads on a body that is not JSON *)
| UnicodeEncodeError.          (* a str that pycurl cannot encode as ASCII *)

Inductive result (A : Type) : Type :=
| Ok (a : A)
| Raise (e : exn).
Arguments Ok {A} a.
Arguments Raise {A} e.

Definition rbind {A B} (r : result A) (k : A -> result B) : result B :=
  match r with
  | Ok a => k a
  | Raise e => Raise e
  end.

Declare Scope py_scope.
Delimit Scope py_scope with py.
Notation "'do' x <- r ; k" := (rbind r (fun x => k))
  (at level 10, x name, r at level 100, k at level 200) : py_scope.
Local Open Scope py_scope.

(** ** Dictionaries *)

Fixpoint dict_get (k : string) (d : list (string * value)) : option value :=
  match d with
  | [] => None
  | (k', v) :: d' => if String.eqb k k' then Some v else dict_get k d'
  end.

(** [d[k] = v]: an existing key keeps its position, a new key goes last. *)
Fixpoint dict_set (k : string) (v : value) (d : list (string * value))
  : list (string * value) :=
  match d with
  | [] => [(k, v)]
  | (k', v') :: d' =>
      if String.eqb k k' then (k, v) :: d' else (k', v') :: dict_set k v d'
  end.

(** ** The parameter encoder *)

(** [str(idx)] *)
Definition str (idx : nat) : string := pretty idx.

(** [_build]: [name + "=" + value] raises unless [value] is a [str]. *)
Definition _build (name : string) (v : value) : result string :=
  match v with
  | VStr s => Ok (name +:+ "=" +:+ s)
  | _ => Raise TypeError
  end.

(** The loop of [_encode_list], from index [idx] on. *)
Fixpoint _encode_list_from (idx : nat) (prefix : string) (vals : list value)
  : result (list string) :=
  match vals with
  | [] => Ok []
  | elem :: rest =>
      do f <- _build (prefix +:+ "[" +:+ str idx +:+ "]") elem;
      do fs <- _encode_list_from (S idx) prefix rest;
      Ok (f :: fs)
  end.

(** [_encode_list] receives whatever is neither a [str] nor a [dict]:
    only a list can be iterated. *)
Definition _encode_list (prefix : string) (vals : value) : result (list string) :=
  match vals with
  | VList vs => _encode_list_from 0 prefix vs
  | _ => Raise TypeError
  end.

Fixpoint _encode (prefix : string) (vals : value) (child : bool)
  : result (list string) :=
  match vals with
  | VStr _ => do f <- _build prefix vals; Ok [f]
  | VDict kvs =>
      (fix encode_dict (items : list (string * value)) : result (list string) :=
         match items with
         | [] => Ok []
         | (item, v) :: rest =>
             let key := if child then prefix +:+ "[" +:+ item +:+ "]" else item in
             do es <- _encode key v true;
             do fs <- encode_dict rest;
             Ok (es ++ fs)
         end) kvs
  | _ => _encode_list prefix vals
  end.

Fixpoint _encode_dict (prefix : string) (vals : list (string * value))
  (nested : bool) : result (list string) :=
  match vals with
  | [] => Ok []
  | (item, v) :: rest =>
      let key := if nested then prefix +:+ "[" +:+ item +:+ "]" else item in
      do es <- _encode key v true;
      do fs <- _encode_dict prefix rest nested;
      Ok (es ++ fs)
  end.

(** [len(v)] *)
Definition len (v : value) : result nat :=
  match v with
  | VStr s => Ok (String.length s)
  | VList vs => Ok (length vs)
  | VDict kvs => Ok (length kvs)
  | _ => Raise TypeError
  end.

(** [v[k]] for a [str] key *)
Definition getitem (v : value) (k : string) : result value :=
  match v with
  | VDict kvs =>
      match dict_get k kvs with
      | Some x => Ok x
      | None => Raise (KeyError k)
      end
  | _ => Raise TypeError
  end.

(** ** The world of a call

    Arguments are references into a store of objects, so that what
    [_execute] writes into the caller's mapping stays visible after the call.
    The transport is a scripted one: it records what it is handed and
    answers from a queue of replies. *)

Definition loc := positive.

Record request := { url : string; postfields : string }.

(** The two options of the curl handle that are set from a [str]. *)
Inductive curl_option := URL | POSTFIELDS.

Inductive reply :=
| Unreachable              (* curl.perform() raises *)
| Body (bytes : string).   (* the bytes written to buf, read as iso-8859-1 *)

Record world := {
  heap : gmap loc value;
  sent : list request;
  inbox : list reply
}.

#[global] Instance value_inhabited : Inhabited value := populate VNone.

(** The object behind a reference. [None] is an object like any other, and
    it is what an address that holds nothing reads as. *)
Definition deref (w : world) (l : loc) : value := heap w !!! l.

Definition store (l : loc) (v : value) (w : world) : world :=
  {| heap := <[l := v]> (heap w); sent := sent w; inbox := inbox w |}.

Definition M (A : Type) : Type := world -> result A * world.

Definition ret {A} (a : A) : M A := fun w => (Ok a, w).
Definition raise {A} (e : exn) : M A := fun w => (Raise e, w).
Definition lift {A} (r : result A) : M A := fun w => (r, w).
Definition bind {A B} (m : M A) (k : A -> M B) : M B :=
  fun w =>
    match m w with
    | (Ok a, w') => k a w'
    | (Raise e, w') => (Raise e, w')
    end.

Notation "'run' x <- m ; k" := (bind m (fun x => k))
  (at level 10, x name, m at level 100, k at level 200) : py_scope.

Definition read (l : loc) : M value := fun w => (Ok (deref w l), w).

(** [curl.perform()] on a handle whose [URL] and [POSTFIELDS] have been set,
    that is, after [setopt] has taken both strings: the request is handed
    over, and the next reply of the script is what comes back. *)
Definition perform (u posting : string) : M string :=
  fun w =>
    let rq := {| url := u; postfields := posting |} in
    let w' := {| heap := heap w; sent := sent w ++ [rq]; inbox := tail (inbox w) |} in
    match inbox w with
    | Body b :: _ => (Ok b, w')
    | _ => (Raise CurlError, w')
    end.

(** [params = {}] *)
Definition new_dict : M loc :=
  fun w =>
    let l := fresh (dom (heap w)) in
    (Ok l, store l (VDict []) w).

(** [params[k] = v] *)
Definition setitem (l : loc) (k : string) (v : value) : M unit :=
  fun w =>
    match deref w l with
    | VDict kvs => (Ok tt, store l (VDict (dict_set k v kvs)) w)
    | _ => (Raise TypeError, w)
    end.

(** ** The dispatcher *)

Record ConduitBase := {
  token : option string;
  host : option string;
  prefix : option string
}.

(** The [fields] list of the [manual_post] branch. *)
Definition manual_fields (tok : string) (parameters : value)
  : result (list string) :=
  do f0 <- _build "api.token" (VStr tok);
  do fs <- match parameters with
           | VNone => Ok []
           | _ => do n <- len parameters;
                  if (0 <? n)%nat then _encode "" parameters false else Ok []
           end;
  Ok (f0 :: fs).

Section Dispatcher.

(** [urllib.parse.urlencode], [json.loads] and pycurl's [setopt] on a
    [str] are library functions, taken as they are. [setopt] raises when it
    refuses the string (pycurl encodes a [str] as ASCII and raises
    [UnicodeEncodeError] when it cannot). *)
Variable urlencode : value -> result string.
Variable json_loads : string -> result value.
Variable setopt : curl_option -> string -> result unit.

(** The block under [# post-data]. *)
Definition post_data (tok : string) (manual_post : bool) (parameters : loc)
  : M string :=
  if manual_post then
    run vals <- read parameters;
    run fields <- lift (manual_fields tok vals);
    ret (String.concat "&" fields)
  else
    run vals <- read parameters;
    run params <- match vals with
                  | VNone => new_dict
                  | _ => ret parameters
                  end;
    run _u <- setitem params "api.token" (VStr tok);
    run d <- read params;
    lift (urlencode d).

(** The block under [# and data back]. *)
Definition data_back (body : string) : result value :=
  do res <- json_loads body;
  do errored <- getitem res "error_code";
  match errored with
  | VNone => getitem res "result"
  | _ => do info <- getitem res "error_info"; Raise (Exception info)
  end.

Definition _execute (self : ConduitBase) (endpoint : string)
  (manual_post : bool) (parameters : loc) : M value :=
  match token self with
  | None => raise (Exception (VStr "no token given..."))
  | Some tok =>
      match host self with
      | None => raise (Exception (VStr "no host given..."))
      | Some h =>
          let u := h +:+ "/api/" +:+ endpoint in
          run _u <- lift (setopt URL u);
          run posting <- post_data tok manual_post parameters;
          run _u <- lift (setopt POSTFIELDS posting);
          run body <- perform u posting;
          lift (data_back body)
      end
  end.

Definition _go (self : ConduitBase) (operator : string) (params : loc)
  (manual_post : bool) : M value :=
  match prefix self with
  | None => raise (Exception (VStr "no prefix configured"))
  | Some p => _execute self (p +:+ "." +:+ operator) manual_post params
  end.

End Dispatcher.

(** The handle takes the URL and the body of a request. *)
Definition accepted (setopt : curl_option -> string -> result unit)
  (rq : request) : Prop :=
  setopt URL (url rq) = Ok tt /\ setopt POSTFIELDS (postfields rq) = Ok tt.

(** A computation that leaves the transport alone: nothing sent, no reply
    taken. *)
Definition offline {A} (m : M A) : Prop :=
  forall w, sent (m w).2 = sent w /\ inbox (m w).2 = inbox w.

(** ** The error kinds of the specification

    The code raises the one class [Exception]; a configuration error is one
    of the three raised before the request is built, an API error is the one
    that carries [error_info]. *)

Definition ConfigurationError (e : exn) : Prop :=
  e = Exception (VStr "no prefix configured")
  \/ e = Exception (VStr "no token given...")
  \/ e = Exception (VStr "no host given...").

Definition ApiError (message : value) : exn := Exception message.

(** ** A scripted setting

    A configured client, stand-ins for the library functions, and worlds
    whose transport answers with one scripted reply; the bodies are named
    rather than spelled out, [scripted_loads] gives the envelope each one
    parses to. *)

Definition a_client : ConduitBase :=
  {| token := Some "api-abc";
     host := Some "https://phab.example";
     prefix := Some "user" |}.

Definition stub_urlencode (v : value) : result string := Ok "form".

(** The characters below 128. *)
Definition is_ascii (s : string) : bool :=
  forallb (fun c => (Ascii.nat_of_ascii c <? 128)%nat) (String.list_ascii_of_string s).

(** A [setopt] that, like pycurl's, takes a [str] only when it is ASCII. *)
Definition ascii_setopt (o : curl_option) (s : string) : result unit :=
  if is_ascii s then Ok tt else Raise UnicodeEncodeError.

(** The two bytes of a small e with an acute accent in UTF-8. *)
Definition e_acute : string :=
  String (Ascii.ascii_of_nat 195) (String (Ascii.ascii_of_nat 169) EmptyString).

Definition scripted_loads (body : string) : result value :=
  if String.eqb body "reply-ok" then
    Ok (VDict [("result", VDict [("phid", VStr "PHID-USER-1")]);
               ("error_code", VNone);
               ("error_info", VNone)])
  else if String.eqb body "reply-bad-token" then
    Ok (VDict [("result", VNone);
               ("error_code", VStr "ERR-BAD-TOKEN");
               ("error_info", VStr "Invalid token.")])
  else Raise JSONDecodeError.

(** A world with one object, at address 1, and one reply waiting. *)
Definition world_with (params : value) (body : string) : world :=
  {| heap := {[ 1%positive := params ]}; sent := []; inbox := [Body body] |}.

(** ** Positions inside nested mappings

    A position points at the value of one key of a mapping, which may itself
    sit under keys of enclosing mappings; the entries before and after the
    key are kept at every level. *)

Definition is_str (v : value) : bool :=
  match v with VStr _ => true | _ => false end.

Inductive position : Type :=
| Here (before : list (string * value)) (k : string)
       (after : list (string * value))
| Under (before : list (string * value)) (k : string) (inner : position)
        (after : list (string * value)).

(** The tree with [v] at the position. *)
Fixpoint fill (c : position) (v : value) : value :=
  match c with
  | Here before k after => VDict (before ++ (k, v) :: after)
  | Under before k inner after => VDict (before ++ (k, fill inner v) :: after)
  end.

(** The tree with the entry at the position left out. *)
Fixpoint without (c : position) : value :=
  match c with
  | Here before k after => VDict (before ++ after)
  | Under before k inner after => VDict (before ++ (k, without inner) :: after)
  end.

(** The keys from the outermost mapping down to the position. *)
Fixpoint path (c : position) : list string :=
  match c with
  | Here _ k _ => [k]
  | Under _ k inner _ => k :: path inner
  end.

Fixpoint brackets (ks : list string) : string :=
  match ks with
  | [] => ""
  | k :: ks' => "[" +:+ k +:+ "]" +:+ brackets ks'
  end.

(** The field name [k0[k1]...[kn]] of a path. *)
Definition field_name (ks : list string) : string :=
  match ks with
  | [] => ""
  | k :: ks' => k +:+ brackets ks'
  end.

(** The name the encoder has reached when it arrives at a position. *)
Fixpoint name_at (prefix : string) (nested : bool) (c : position) : string :=
  match c with
  | Here _ k _ => if nested then prefix +:+ "[" +:+ k +:+ "]" else k
  | Under _ k inner _ =>
      name_at (if nested then prefix +:+ "[" +:+ k +:+ "]" else k) true inner
  end.

(** What the entries before and after a position encode to, outermost
    level first (before) and innermost level first (after), as the loops of
    [_encode_dict] run through them. *)
Fixpoint pairs_before (prefix : string) (nested : bool) (c : position)
  : result (list string) :=
  match c with
  | Here before _ _ => _encode_dict prefix before nested
  | Under before k inner _ =>
      let key := if nested then prefix +:+ "[" +:+ k +:+ "]" else k in
      do a <- _encode_dict prefix before nested;
      do a' <- pairs_before key true inner;
      Ok (a ++ a')
  end.

Fixpoint pairs_after (prefix : string) (nested : bool) (c : position)
  : result (list string) :=
  match c with
  | Here _ _ after => _encode_dict prefix after nested
  | Under _ k inner after =>
      let key := if nested then prefix +:+ "[" +:+ k +:+ "]" else k in
      do b' <- pairs_after key true inner;
      do b <- _encode_dict prefix after nested;
      Ok (b' ++ b)
  end.

(** ** Shapes the encoder accepts *)

(** A tree the encoder goes through without raising: strings, sequences of
    strings, and mappings of such trees. *)
Fixpoint encodable (v : value) : bool :=
  match v with
  | VStr _ => true
  | VList vs => forallb is_str vs
  | VDict kvs =>
      (fix all_values (items : list (string * value)) : bool :=
         match items with
         | [] => true
         | (_, x) :: rest => encodable x && all_values rest
         end) kvs
  | _ => false
  end.

(** The number of strings at the leaves of such a tree. *)
Fixpoint leaves (v : value) : nat :=
  match v with
  | VStr _ => 1
  | VList vs => length vs
  | VDict kvs =>
      (fix sum_values (items : list (string * value)) : nat :=
         match items with
         | [] => 0
         | (_, x) :: rest => leaves x + sum_values rest
         end) kvs
  | _ => 0
  end.

(** The strings of such a tree, each with the keys and indices that lead
    to it from the root, in the order in which the encoder walks the tree. *)
Fixpoint list_paths (idx : nat) (vs : list value) : list (list string * string) :=
  match vs with
  | [] => []
  | VStr s :: rest => ([str idx], s) :: list_paths (S idx) rest
  | _ :: rest => list_paths (S idx) rest
  end.

Fixpoint leaf_paths (v : value) : list (list string * string) :=
  match v with
  | VStr s => [([], s)]
  | VList vs => list_paths 0 vs
  | VDict kvs =>
      (fix of_items (items : list (string * value)) : list (list string * string) :=
         match items with
         | [] => []
         | (k, x) :: rest =>
             ((fun ps => (k :: ps.1, ps.2)) <$> leaf_paths x) ++ of_items rest
         end) kvs
  | _ => []
  end.

(** What a manual call accepts as its parameters. *)
Definition manual_ok (v : value) : bool :=
  match v with
  | VNone => true
  | _ => encodable v
  end.

(** ** The factory and the endpoint classes *)

(** The library functions the classes rely on, taken as they are:
    [urllib.parse.urlencode], [json.loads], pycurl's [setopt] and
    [urllib.parse.quote]. *)
Record library := {
  lib_urlencode : value -> result string;
  lib_json_loads : string -> result value;
  lib_setopt : curl_option -> string -> result unit;
  lib_quote : value -> result string
}.

(** [a + v] for a [str] literal [a] *)
Definition str_add (a : string) (v : value) : result string :=
  match v with
  | VStr s => Ok (a +:+ s)
  | _ => Raise TypeError
  end.

(** A new object: a [dict] literal, or the [None] a default stands for. *)
Definition alloc (v : value) : M loc :=
  fun w =>
    let l := fresh (dom (heap w)) in
    (Ok l, store l v w).

(** [self._go(operator, params, manual_post)] with the library in place. *)
Definition go (lib : library) (self : ConduitBase) (operator : string)
  (params : loc) (manual_post : bool) : M value :=
  _go (lib_urlencode lib) (lib_json_loads lib) (lib_setopt lib)
    self operator params manual_post.

(** The attributes of the class [ConduitBase]. *)
Definition ConduitBase_class : ConduitBase :=
  {| token := None; host := None; prefix := None |}.

(** [self.prefix = p] in an [__init__] *)
Definition with_prefix (p : string) (self : ConduitBase) : ConduitBase :=
  {| token := token self; host := host self; prefix := Some p |}.

Module Factory.

Record t := { token : option string; host : option string }.

Definition create (self : t) (obj_type : unit -> ConduitBase) : ConduitBase :=
  let obj := obj_type tt in
  Build_ConduitBase (token self) (host self) (prefix obj).

End Factory.

Module Diffusion.

Definition __init__ (self : ConduitBase) : ConduitBase :=
  with_prefix "diffusion" self.

Definition new (_ : unit) : ConduitBase := __init__ ConduitBase_class.

Definition filecontent_by_path_branch (lib : library) (self : ConduitBase)
  (path callsign branch : value) : M value :=
  run repository <- lift (str_add "r" callsign);
  run params <- alloc (VDict [("path", path);
                              ("repository", VStr repository);
                              ("branch", branch)]);
  go lib self "filecontentquery" params true.

End Diffusion.

Module File.

Definition __init__ (self : ConduitBase) : ConduitBase :=
  with_prefix "file" self.

Definition new (_ : unit) : ConduitBase := __init__ ConduitBase_class.

Definition download (lib : library) (self : ConduitBase) (phid : value)
  : M value :=
  run params <- alloc (VDict [("phid", phid)]);
  go lib self "download" params true.

End File.

Module Dashboard.

Definition __init__ (self : ConduitBase) : ConduitBase :=
  with_prefix "dashboard" self.

Definition new (_ : unit) : ConduitBase := __init__ ConduitBase_class.

Definition edit_text (lib : library) (self : ConduitBase)
  (identifier text : value) : M value :=
  run vals <- alloc (VDict []);
  run _u <- setitem vals "transactions[0][type]" (VStr "custom.text");
  run quoted <- lift (lib_quote lib text);
  run _u <- setitem vals "transactions[0][value]" (VStr quoted);
  run _u <- setitem vals "objectIdentifier" identifier;
  go lib self "panel.edit" vals true.

End Dashboard.

Module Project.

Definition __init__ (self : ConduitBase) : ConduitBase :=
  with_prefix "project" self.

Definition new (_ : unit) : ConduitBase := __init__ ConduitBase_class.

Definition _query (lib : library) (self : ConduitBase) (params : loc)
  : M value :=
  go lib self "query" params true.

Definition open (lib : library) (self : ConduitBase) : M value :=
  run params <- alloc (VDict [("status", VStr "status-open")]);
  _query lib self params.

Definition by_name (lib : library) (self : ConduitBase) (name : value)
  : M value :=
  run params <- alloc (VDict [("names", VList [name])]);
  _query lib self params.

End Project.

Module User.

Definition __init__ (self : ConduitBase) : ConduitBase :=
  with_prefix "user" self.

Definition new (_ : unit) : ConduitBase := __init__ ConduitBase_class.

Definition _query (lib : library) (self : ConduitBase) (params : loc)
  : M value :=
  go lib self "query" params true.

Definition by_phids (lib : library) (self : ConduitBase) (phids : value)
  : M value :=
  run params <- alloc (VDict [("phids", phids)]);
  _query lib self params.

Definition whoami (lib : library) (self : ConduitBase) : M value :=
  run params <- alloc VNone;
  go lib self "whoami" params true.

Definition query (lib : library) (self : ConduitBase) : M value :=
  run params <- alloc VNone;
  _query lib self params.

End User.

Module CalendarEvent.

Definition __init__ (self : ConduitBase) : ConduitBase :=
  with_prefix "calendar.event" self.

Definition new (_ : unit) : ConduitBase := __init__ ConduitBase_class.

(** [for p in params: vals[p] = params[p]], over the keys still to come. *)
Fixpoint copy_keys (vals : loc) (params : list (string * value))
  (ps : list string) : M unit :=
  match ps with
  | [] => ret tt
  | p :: rest =>
      run x <- lift (getitem (VDict params) p);
      run _u <- setitem vals p x;
      copy_keys vals params rest
  end.

(** [params] is [None] or a mapping, which is only read. *)
Definition _search_by_query (lib : library) (self : ConduitBase)
  (query : value) (params : option (list (string * value))) : M value :=
  run vals <- alloc (VDict [("queryKey", query)]);
  run _u <- match params with
            | Some (kv :: kvs) => copy_keys vals (kv :: kvs) (kv :: kvs).*1
            | _ => ret tt
            end;
  go lib self "search" vals true.

Definition upcoming_by_subscriber (lib : library) (self : ConduitBase)
  (user_phid : value) : M value :=
  _search_by_query lib self (VStr "upcoming")
    (Some [("constraints", VDict [("subscribers", VList [user_phid])])]).

End CalendarEvent.

Module Conpherence.

Definition __init__ (self : ConduitBase) : ConduitBase :=
  with_prefix "conpherence" self.

Definition new (_ : unit) : ConduitBase := __init__ ConduitBase_class.

Definition _querythread (lib : library) (self : ConduitBase) (params : loc)
  : M value :=
  go lib self "querythread" params true.

Definition updatethread (lib : library) (self : ConduitBase)
  (room message : value) : M value :=
  run params <- alloc (VDict [("id", room); ("message", message)]);
  go lib self "updatethread" params true.

Definition querythread_by_id (lib : library) (self : ConduitBase)
  (room_id : value) : M value :=
  run params <- alloc (VDict [("ids", VList [room_id])]);
  _querythread lib self params.

Definition querytransaction_by_phid_last (lib : library) (self : ConduitBase)
  (room_phid last : value) : M value :=
  run params <- alloc (VDict [("roomPHID", room_phid); ("limit", last)]);
  go lib self "querytransaction" params true.

Definition querythread (lib : library) (self : ConduitBase) : M value :=
  run params <- alloc VNone;
  _querythread lib self params.

End Conpherence.

Module Phriction.

Definition __init__ (self : ConduitBase) : ConduitBase :=
  with_prefix "phriction" self.

Definition new (_ : unit) : ConduitBase := __init__ ConduitBase_class.

Definition info (lib : library) (self : ConduitBase) (slug : value)
  : M value :=
  run params <- alloc (VDict [("slug", slug)]);
  go lib self "info" params true.

Definition edit (lib : library) (self : ConduitBase)
  (slug title content : value) : M value :=
  run params <- alloc (VDict [("slug", slug); ("title", title);
                              ("content", content)]);
  go lib self "edit" params false.

End Phriction.

Module Maniphest.

Definition __init__ (self : ConduitBase) : ConduitBase :=
  with_prefix "maniphest" self.

Definition new (_ : unit) : ConduitBase := __init__ ConduitBase_class.

Definition _comment_params (task_id message : value) : M loc :=
  alloc (VDict [("id", task_id); ("comments", message)]).

Definition _open_params : M loc :=
  alloc (VDict [("status", VStr "status-open")]).

Definition _update (lib : library) (self : ConduitBase) (params : loc)
  : M value :=
  go lib self "update" params true.

Definition _query (lib : library) (self : ConduitBase) (params : loc)
  : M value :=
  go lib self "query" params true.

Definition comment_by_id (lib : library) (self : ConduitBase)
  (task_id message : value) : M value :=
  run params <- _comment_params task_id message;
  _update lib self params.

Definition open (lib : library) (self : ConduitBase) : M value :=
  run params <- _open_params;
  _query lib self params.

Definition _close_by_id (lib : library) (self : ConduitBase)
  (task_id status : value) : M value :=
  run params <- _comment_params task_id (VStr "marking closed");
  run _u <- setitem params "status" status;
  _update lib self params.

Definition invalid_by_id (lib : library) (self : ConduitBase)
  (task_id : value) : M value :=
  _close_by_id lib self task_id (VStr "invalid").

Definition resolve_by_id (lib : library) (self : ConduitBase)
  (task_id : value) : M value :=
  _close_by_id lib self task_id (VStr "resolved").

Definition open_and_subscribed (lib : library) (self : ConduitBase)
  (user_phid : value) : M value :=
  run params <- _open_params;
  run _u <- setitem params "ccPHIDs" (VList [user_phid]);
  _query lib self params.

Definition open_by_project_phid (lib : library) (self : ConduitBase)
  (project_phid : value) : M value :=
  run params <- _open_params;
  run _u <- setitem params "projectPHIDs" (VList [project_phid]);
  _query lib self params.

End Maniphest.

(** The constructors of the nine endpoint classes. *)
Definition endpoint_classes : list (unit -> ConduitBase) :=
  [Diffusion.new; File.new; Dashboard.new; Project.new; User.new;
   CalendarEvent.new; Conpherence.new; Phriction.new; Maniphest.new].

(** The library of the scripted setting; [quote] is left as the identity on
    strings there. *)
Definition scripted_library : library :=
  {| lib_urlencode := stub_urlencode;
     lib_json_loads := scripted_loads;
     lib_setopt := ascii_setopt;
     lib_quote := fun v => match v with VStr s => Ok s | _ => Raise TypeError end |}.

(** What a call returns or raises once its request is out: the reading of
    the first waiting reply. *)
Definition answer (lib : library) (w : world) : result value :=
  match inbox w with
  | Body b :: _ => data_back (lib_json_loads lib) b
  | _ => Raise CurlError
  end.

(** The world after a request has gone out and its reply has been taken. *)
Definition after_request (rq : request) (w : world) : world :=
  {| heap := heap w; sent := sent w ++ [rq]; inbox := tail (inbox w) |}.

(** The mapping a search is made with: [queryKey] first, bound to the
    caller's own ["queryKey"] when there is one, then the caller's other
    entries. *)
Definition search_vals (query : value) (params : list (string * value))
  : list (string * value) :=
  ("queryKey", default query (dict_get "queryKey" params))
  :: filter (fun kv => kv.1 <> "queryKey") params.

(** * Properties of the encoder *)

Lemma append_cons x (a b : string) : String x a +:+ b = String x (a +:+ b).
Proof. reflexivity. Qed.

Lemma append_nil_l (b : string) : "" +:+ b = b.
Proof. reflexivity. Qed.

Lemma append_assoc (a b c : string) : (a +:+ b) +:+ c = a +:+ (b +:+ c).
Proof.
  induction a as [|x a IH]; [reflexivity|].
  now rewrite !append_cons, IH.
Qed.

Lemma append_nil_r (a : string) : a +:+ "" = a.
Proof.
  induction a as [|x a IH]; [reflexivity|].
  now rewrite append_cons, IH.
Qed.

Create Rewrite HintDb strings.
#[local] Hint Rewrite append_assoc append_cons append_nil_l append_nil_r : strings.

(** [str] prints the index in decimal. *)
Lemma str_decimal : str 0 = "0" /\ str 7 = "7" /\ str 10 = "10" /\ str 123 = "123".
Proof. vm_compute. repeat split. Qed.

(** Case on a result in the goal; a raise on the left of a bind is the
    result of the bind. *)
Ltac ok_or_raise r :=
  destruct r as [?|?]; simpl; [|reflexivity].

(** The loop inside [_encode] is [_encode_dict]. *)
Lemma _encode_dict_eq p kvs c : _encode p (VDict kvs) c = _encode_dict p kvs c.
Proof.
  induction kvs as [|[k v] kvs IH]; [reflexivity|].
  simpl in *. destruct (_encode _ v true); simpl; [|reflexivity].
  now rewrite IH.
Qed.

Lemma _encode_dict_app p xs ys n :
  _encode_dict p (xs ++ ys) n =
  do a <- _encode_dict p xs n; do b <- _encode_dict p ys n; Ok (a ++ b).
Proof.
  induction xs as [|[k v] xs IH]; simpl.
  - now destruct (_encode_dict p ys n).
  - ok_or_raise (_encode (if n then p +:+ "[" +:+ k +:+ "]" else k) v true).
    rewrite IH.
    ok_or_raise (_encode_dict p xs n). ok_or_raise (_encode_dict p ys n).
    now rewrite app_assoc.
Qed.

Lemma _encode_list_from_strs i p (ss : list string) :
  _encode_list_from i p (VStr <$> ss) =
  Ok (imap (fun j s => (p +:+ "[" +:+ str (i + j) +:+ "]") +:+ "=" +:+ s) ss).
Proof.
  revert i. induction ss as [|s ss IH]; intros i; [reflexivity|].
  simpl. rewrite IH. simpl. rewrite Nat.add_0_r. do 2 f_equal.
  apply imap_ext. intros j x _. simpl. now rewrite Nat.add_succ_r.
Qed.

Lemma _encode_list_from_raises i p vs e :
  _encode_list_from i p vs = Raise e -> e = TypeError.
Proof.
  revert i. induction vs as [|v vs IH]; intros i; simpl; [discriminate|].
  destruct v; simpl; try (intros [= <-]; reflexivity).
  destruct (_encode_list_from (S i) p vs) eqn:E; simpl; [discriminate|].
  intros [= <-]. eauto.
Qed.

Lemma _encode_list_from_not_str i p vs :
  existsb (fun v => negb (is_str v)) vs = true ->
  _encode_list_from i p vs = Raise TypeError.
Proof.
  revert i. induction vs as [|v vs IH]; intros i; simpl; [discriminate|].
  destruct v; simpl; try reflexivity.
  intros H. now rewrite IH.
Qed.

(** Induction on values, through the lists they nest. *)
Lemma value_ind' (P : value -> Prop) :
  P VNone -> (forall b, P (VBool b)) -> (forall z, P (VInt z)) ->
  (forall s, P (VStr s)) ->
  (forall vs, Forall P vs -> P (VList vs)) ->
  (forall kvs, Forall (fun kv => P kv.2) kvs -> P (VDict kvs)) ->
  forall v, P v.
Proof.
  intros HN HB HI HS HL HD.
  fix IH 1. intros [| b | z | s | vs | kvs].
  - exact HN.
  - apply HB.
  - apply HI.
  - apply HS.
  - apply HL. induction vs as [|v vs IHvs]; constructor; [apply IH | exact IHvs].
  - apply HD. induction kvs as [|[k v] kvs IHkvs]; constructor; [apply IH | exact IHkvs].
Qed.

(** Whatever the encoder raises is a [TypeError]. *)
Lemma _encode_raises v : forall p c e, _encode p v c = Raise e -> e = TypeError.
Proof.
  induction v as [| b | z | s | vs _ | kvs IH] using value_ind'; intros p c e;
    try (simpl; intros [= <-]; reflexivity); try (simpl; discriminate).
  - simpl. apply _encode_list_from_raises.
  - rewrite _encode_dict_eq. revert p c.
    induction IH as [|[k v] kvs Hv _ IHk]; intros p c; simpl; [discriminate|].
    destruct (_encode _ v true) as [es|e'] eqn:Ev; simpl.
    + destruct (_encode_dict p kvs c) as [fs|e''] eqn:Ek; simpl; [discriminate|].
      intros [= <-]. eauto.
    + intros [= <-]. eauto.
Qed.

Lemma _encode_dict_raises p kvs n e :
  _encode_dict p kvs n = Raise e -> e = TypeError.
Proof. rewrite <- _encode_dict_eq. apply _encode_raises. Qed.

Lemma _encode_dict_middle p xs k v ys n :
  _encode_dict p (xs ++ (k, v) :: ys) n =
  do a <- _encode_dict p xs n;
  do es <- _encode (if n then p +:+ "[" +:+ k +:+ "]" else k) v true;
  do b <- _encode_dict p ys n;
  Ok (a ++ es ++ b).
Proof.
  rewrite _encode_dict_app. simpl.
  ok_or_raise (_encode_dict p xs n).
  ok_or_raise (_encode (if n then p +:+ "[" +:+ k +:+ "]" else k) v true).
  now destruct (_encode_dict p ys n).
Qed.

Lemma name_at_nested p c : name_at p true c = p +:+ brackets (path c).
Proof.
  revert p. induction c as [xs k ys | xs k c IH ys]; intros p; simpl.
  - now autorewrite with strings.
  - rewrite IH. now autorewrite with strings.
Qed.

Lemma name_at_top c : name_at "" false c = field_name (path c).
Proof.
  destruct c as [xs k ys | xs k c ys]; simpl; [now rewrite append_nil_r|].
  apply name_at_nested.
Qed.

Lemma _encode_fill c : forall p n v,
  _encode p (fill c v) n =
  do a <- pairs_before p n c;
  do es <- _encode (name_at p n c) v true;
  do b <- pairs_after p n c;
  Ok (a ++ es ++ b).
Proof.
  induction c as [xs k ys | xs k c IH ys]; intros p n v; simpl fill;
    rewrite _encode_dict_eq, _encode_dict_middle; simpl; [reflexivity|].
  rewrite IH.
  ok_or_raise (_encode_dict p xs n).
  ok_or_raise (pairs_before (if n then p +:+ "[" +:+ k +:+ "]" else k) true c).
  ok_or_raise (_encode (name_at (if n then p +:+ "[" +:+ k +:+ "]" else k) true c) v true).
  ok_or_raise (pairs_after (if n then p +:+ "[" +:+ k +:+ "]" else k) true c).
  ok_or_raise (_encode_dict p ys n).
  now rewrite <- !app_assoc.
Qed.

Lemma _encode_without c : forall p n,
  _encode p (without c) n =
  do a <- pairs_before p n c; do b <- pairs_after p n c; Ok (a ++ b).
Proof.
  induction c as [xs k ys | xs k c IH ys]; intros p n; simpl without;
    rewrite _encode_dict_eq.
  - apply _encode_dict_app.
  - rewrite _encode_dict_middle. simpl. rewrite IH.
    ok_or_raise (_encode_dict p xs n).
    ok_or_raise (pairs_before (if n then p +:+ "[" +:+ k +:+ "]" else k) true c).
    ok_or_raise (pairs_after (if n then p +:+ "[" +:+ k +:+ "]" else k) true c).
    ok_or_raise (_encode_dict p ys n).
    now rewrite <- !app_assoc.
Qed.

(** ** Sequences (C1) *)

(** C1, as stated, fails: a mapping under a sequence is not encoded
    recursively. On [{"transactions": [{"type": "custom.text", "value":
    "hi"}]}] the encoder hands the inner mapping to [_build], which raises
    [TypeError]; the two pairs are not produced. *)
Lemma encode_sequence_of_mappings_counterexample :
  _encode ""
    (VDict [("transactions",
             VList [VDict [("type", VStr "custom.text"); ("value", VStr "hi")]])])
    false = Raise TypeError
  /\ _encode ""
       (VDict [("transactions",
                VList [VDict [("type", VStr "custom.text"); ("value", VStr "hi")]])])
       false <>
     Ok ["transactions[0][type]=custom.text"; "transactions[0][value]=hi"].
Proof. vm_compute. split; [reflexivity | discriminate]. Qed.

(** C1 (amended): for every mapping whose value at a key [k] is a sequence,
    top-level encoding gives one pair [k[i]=s] per element, in sequence
    order, when the elements are strings, placed between the pairs of the
    entries before and after [k]; the elements are not encoded recursively,
    and an element that is not a string (a mapping, a sequence) makes the
    encoder raise [TypeError]. The pairs [transactions[0][type]=custom.text]
    and [transactions[0][value]=hi] come, in that order, from the mapping
    that has these bracketed names as its own keys. *)
Theorem encode_sequence_of_strings
    (before after : list (string * value)) (k : string)
    (ss : list string) (vs : list value) :
  _encode "" (VDict (before ++ (k, VList (VStr <$> ss)) :: after)) false =
    (do a <- _encode_dict "" before false;
     do b <- _encode_dict "" after false;
     Ok (a ++ imap (fun i s => (k +:+ "[" +:+ str i +:+ "]") +:+ "=" +:+ s) ss ++ b))
  /\ (existsb (fun v => negb (is_str v)) vs = true ->
      _encode "" (VDict (before ++ (k, VList vs) :: after)) false = Raise TypeError)
  /\ _encode "" (VDict [("transactions[0][type]", VStr "custom.text");
                        ("transactions[0][value]", VStr "hi")]) false =
     Ok ["transactions[0][type]=custom.text"; "transactions[0][value]=hi"].
Proof.
  split; [|split; [|vm_compute; reflexivity]].
  - rewrite _encode_dict_eq, _encode_dict_middle. simpl.
    now rewrite _encode_list_from_strs.
  - intros Hvs. rewrite _encode_dict_eq, _encode_dict_middle. simpl.
    rewrite (_encode_list_from_not_str _ _ _ Hvs).
    destruct (_encode_dict "" before false) as [a|e] eqn:E; simpl; [reflexivity|].
    now rewrite (_encode_dict_raises _ _ _ _ E).
Qed.

Lemma encode_sequence_of_strings_witness :
  existsb (fun v => negb (is_str v)) [VStr "a"; VDict []; VStr "b"] = true
  /\ _encode "" (VDict ([("s", VStr "open")] ++
                        ("ids", VList [VStr "a"; VDict []; VStr "b"]) :: []))
       false = Raise TypeError.
Proof.
  split; [reflexivity|].
  apply (encode_sequence_of_strings [("s", VStr "open")] [] "ids" []
           [VStr "a"; VDict []; VStr "b"]).
  reflexivity.
Defined.

(** ** Flat mappings (C5) *)

(** C5: a single-level mapping from string keys to string leaves encodes, at
    top level, to exactly one pair per key, named by the bare key, in the
    mapping's own order. *)
Theorem encode_flat_mapping (kss : list (string * string)) :
  _encode "" (VDict (prod_map id VStr <$> kss)) false =
  Ok ((fun ks => ks.1 +:+ "=" +:+ ks.2) <$> kss).
Proof.
  rewrite _encode_dict_eq.
  induction kss as [|[k s] kss IH]; [reflexivity|].
  rewrite !fmap_cons.
  cbn [prod_map fst snd id _encode_dict _encode _build rbind].
  now rewrite IH.
Qed.

(** ** Nested mappings (C6) *)

(** C6: the value at a position reached through the keys [k0], [k1], ...,
    [kn] of nested mappings is encoded under the name [k0[k1]...[kn]]: the
    top-level key stays bare and every level below appends ["[" + key +
    "]"]; its pairs stand between those of the entries before and after the
    position. In particular [{"constraints": {"subscribers": ["P"]}}] gives
    the single pair [constraints[subscribers][0]=P]. *)
Theorem encode_nested_mapping (c : position) (v : value) (s : string) :
  _encode "" (fill c v) false =
    (do a <- pairs_before "" false c;
     do es <- _encode (field_name (path c)) v true;
     do b <- pairs_after "" false c;
     Ok (a ++ es ++ b))
  /\ _encode "" (fill c (VStr s)) false =
    (do a <- pairs_before "" false c;
     do b <- pairs_after "" false c;
     Ok (a ++ [field_name (path c) +:+ "=" +:+ s] ++ b))
  /\ fill (Under [] "constraints" (Here [] "subscribers" []) []) (VList [VStr "P"])
     = VDict [("constraints", VDict [("subscribers", VList [VStr "P"])])]
  /\ _encode "" (VDict [("constraints", VDict [("subscribers", VList [VStr "P"])])])
       false = Ok ["constraints[subscribers][0]=P"].
Proof.
  split; [|split; [|split; [reflexivity | vm_compute; reflexivity]]].
  - now rewrite _encode_fill, name_at_top.
  - rewrite _encode_fill, name_at_top. simpl.
    now destruct (pairs_before "" false c).
Qed.

(** ** Empty mappings and sequences (C8) *)

(** C8, as stated, fails at a nested depth that lies inside a sequence: there
    the empty subtree is handed to [_build], which raises [TypeError], while
    the tree without it encodes. *)
Lemma encode_empty_in_sequence_counterexample :
  _encode "" (VDict [("a", VList [VDict []])]) false = Raise TypeError
  /\ _encode "" (VDict [("a", VList [VList []])]) false = Raise TypeError
  /\ _encode "" (VDict [("a", VList [])]) false = Ok []
  /\ _encode "" (VDict [("a", VList [VDict []])]) false <>
     _encode "" (VDict [("a", VList [])]) false.
Proof. vm_compute. repeat split; try reflexivity. discriminate. Qed.

(** C8 (amended): an empty mapping or an empty sequence encodes to no pair
    and raises nothing, under every name; as the value of a key of a mapping,
    at any depth of nested mappings, the tree encodes as the tree without
    that entry; as the whole parameter tree it adds nothing to the fields of
    a manual request. (An empty subtree that is an element of a sequence is
    not encoded at all: the encoder raises [TypeError] there.) *)
Theorem encode_empty_subtree (prefix tok : string) (nested : bool) (c : position) :
  _encode prefix (VDict []) nested = Ok []
  /\ _encode prefix (VList []) nested = Ok []
  /\ _encode prefix (fill c (VDict [])) nested = _encode prefix (without c) nested
  /\ _encode prefix (fill c (VList [])) nested = _encode prefix (without c) nested
  /\ manual_fields tok (VDict []) = Ok ["api.token=" +:+ tok]
  /\ manual_fields tok (VList []) = Ok ["api.token=" +:+ tok].
Proof.
  repeat split; try reflexivity.
  - rewrite _encode_fill, _encode_without. simpl.
    ok_or_raise (pairs_before prefix nested c).
    now destruct (pairs_after prefix nested c).
  - rewrite _encode_fill, _encode_without. simpl.
    ok_or_raise (pairs_before prefix nested c).
    now destruct (pairs_after prefix nested c).
Qed.

(** * Properties of the dispatcher *)

Lemma dict_get_set_eq k v d : dict_get k (dict_set k v d) = Some v.
Proof.
  induction d as [|[k' v'] d IH]; simpl.
  - now rewrite String.eqb_refl.
  - destruct (String.eqb k k') eqn:E; simpl; rewrite ?String.eqb_refl, ?E; auto.
Qed.

Lemma dict_get_set_ne k k' v d : k' <> k -> dict_get k' (dict_set k v d) = dict_get k' d.
Proof.
  intros Hne. apply String.eqb_neq in Hne.
  induction d as [|[k0 v0] d IH]; simpl.
  - now rewrite Hne.
  - destruct (String.eqb k k0) eqn:E; simpl.
    + apply String.eqb_eq in E. subst k0. now rewrite Hne.
    + now rewrite IH.
Qed.

Lemma dict_set_others k v d :
  filter (fun kv => kv.1 <> k) (dict_set k v d) = filter (fun kv => kv.1 <> k) d.
Proof.
  induction d as [|[k0 v0] d IH]; simpl.
  - rewrite filter_cons_False; [reflexivity | simpl; tauto].
  - destruct (String.eqb k k0) eqn:E.
    + apply String.eqb_eq in E. subst k0.
      rewrite !filter_cons_False; simpl; tauto.
    + apply String.eqb_neq in E.
      rewrite !filter_cons_True by (simpl; congruence). now rewrite IH.
Qed.

Lemma concat_cons_begins sep x fs : exists rest, String.concat sep (x :: fs) = x +:+ rest.
Proof.
  destruct fs as [|y fs]; simpl.
  - exists "". now rewrite append_nil_r.
  - eexists. reflexivity.
Qed.

Lemma offline_ret {A} (a : A) : offline (ret a).
Proof. now intros w. Qed.

Lemma offline_lift {A} (r : result A) : offline (lift r).
Proof. now intros w. Qed.

Lemma offline_read l : offline (read l).
Proof. now intros w. Qed.

Lemma offline_new_dict : offline new_dict.
Proof. now intros w. Qed.

Lemma offline_setitem l k v : offline (setitem l k v).
Proof. intros w. unfold setitem. now destruct (deref w l). Qed.

Lemma offline_bind {A B} (m : M A) (f : A -> M B) :
  offline m -> (forall a, offline (f a)) -> offline (bind m f).
Proof.
  intros Hm Hf w. unfold bind. specialize (Hm w).
  destruct (m w) as [[a|e] w1]; simpl in Hm; [|exact Hm].
  destruct (Hf a w1) as [Hs Hi]. rewrite Hs, Hi. exact Hm.
Qed.

Create HintDb offline.
#[local] Hint Resolve offline_ret offline_lift offline_read offline_new_dict
  offline_setitem : offline.

Section DispatcherFacts.

Variable urlencode : value -> result string.
Variable json_loads : string -> result value.
Variable setopt : curl_option -> string -> result unit.

(** Building the post data neither sends nor receives. *)
Lemma post_data_offline tok mp l : offline (post_data urlencode tok mp l).
Proof.
  unfold post_data. destruct mp.
  - repeat (apply offline_bind; [auto with offline | intros ?]).
    auto with offline.
  - apply offline_bind; [auto with offline | intros vals].
    apply offline_bind; [destruct vals; auto with offline | intros params].
    repeat (apply offline_bind; [auto with offline | intros ?]).
    auto with offline.
Qed.

(** A configured call: the URL is set, the post data are built and set, then
    one request goes out and the reply is read. *)
Lemma _go_run self op l mp w p tok h :
  prefix self = Some p -> token self = Some tok -> host self = Some h ->
  _go urlencode json_loads setopt self op l mp w =
    match setopt URL (h +:+ "/api/" +:+ p +:+ "." +:+ op) with
    | Raise e => (Raise e, w)
    | Ok _ =>
        match post_data urlencode tok mp l w with
        | (Ok posting, w1) =>
            match setopt POSTFIELDS posting with
            | Raise e => (Raise e, w1)
            | Ok _ =>
                (match inbox w with
                 | Body b :: _ => data_back json_loads b
                 | _ => Raise CurlError
                 end,
                 {| heap := heap w1;
                    sent := sent w ++ [{| url := h +:+ "/api/" +:+ p +:+ "." +:+ op;
                                          postfields := posting |}];
                    inbox := tail (inbox w) |})
            end
        | (Raise e, w1) => (Raise e, w1)
        end
    end.
Proof.
  intros Hp Ht Hh. unfold _go, _execute. rewrite Hp, Ht, Hh. cbv zeta.
  unfold bind at 1. unfold lift at 1.
  destruct (setopt URL _) as [[]|e]; [|reflexivity].
  unfold bind at 1.
  pose proof (post_data_offline tok mp l w) as [Hs Hi].
  destruct (post_data urlencode tok mp l w) as [[posting|e] w1]; [|reflexivity].
  simpl in Hs, Hi. unfold bind at 1. unfold lift at 1.
  destruct (setopt POSTFIELDS posting) as [[]|e]; [|reflexivity].
  unfold bind, perform, lift. rewrite Hs, Hi.
  destruct (inbox w) as [|[|b] rest]; reflexivity.
Qed.

(** The same, when the handle takes the URL and the body. *)
Lemma _go_taken self op l mp w p tok h posting w1 :
  prefix self = Some p -> token self = Some tok -> host self = Some h ->
  post_data urlencode tok mp l w = (Ok posting, w1) ->
  accepted setopt {| url := h +:+ "/api/" +:+ p +:+ "." +:+ op;
                     postfields := posting |} ->
  _go urlencode json_loads setopt self op l mp w =
    (match inbox w with
     | Body b :: _ => data_back json_loads b
     | _ => Raise CurlError
     end,
     {| heap := heap w1;
        sent := sent w ++ [{| url := h +:+ "/api/" +:+ p +:+ "." +:+ op;
                              postfields := posting |}];
        inbox := tail (inbox w) |}).
Proof.
  intros Hp Ht Hh Hpost [Hu Hb]. simpl in Hu, Hb.
  now rewrite (_go_run self op l mp w p tok h Hp Ht Hh), Hu, Hpost, Hb.
Qed.

(** ** Configuration errors (C3) *)

(** C3: a call with the prefix unset, with the token unset, or with the
    host unset raises a configuration error, each of the three on its own,
    and the world after the call is the world before it: no request has
    been sent and no reply taken. *)
Theorem call_unconfigured self op l mp w :
  prefix self = None \/ token self = None \/ host self = None ->
  exists e, ConfigurationError e
            /\ _go urlencode json_loads setopt self op l mp w = (Raise e, w).
Proof.
  unfold _go, _execute, raise, ConfigurationError.
  intros H.
  destruct (prefix self) as [p|]; [|eauto].
  destruct (token self) as [tok|]; [|eauto 6].
  destruct (host self) as [h|]; [|eauto 6].
  destruct H as [H|[H|H]]; discriminate.
Qed.

(** ** The endpoint URL (C7) *)

(** C7: with the host and the prefix set, the URL of a call is [host +
    "/api/" + prefix + "." + operator]: it is the string handed to
    [setopt(URL)], so that the call raises what [setopt] raises when it
    refuses it, and it is the URL of the request, of which a call sends at
    most one. The request goes out as soon as the token is set, the post
    data are built and the handle takes the URL and the body. *)
Theorem call_url self op l mp w p h :
  prefix self = Some p -> host self = Some h ->
  let target := h +:+ "/api/" +:+ p +:+ "." +:+ op in
  let w' := (_go urlencode json_loads setopt self op l mp w).2 in
  (sent w' = sent w
   \/ exists body, sent w' = sent w ++ [{| url := target; postfields := body |}])
  /\ (forall tok posting w1,
         token self = Some tok ->
         post_data urlencode tok mp l w = (Ok posting, w1) ->
         accepted setopt {| url := target; postfields := posting |} ->
         sent w' = sent w ++ [{| url := target; postfields := posting |}])
  /\ (forall tok e,
         token self = Some tok -> setopt URL target = Raise e ->
         _go urlencode json_loads setopt self op l mp w = (Raise e, w)).
Proof.
  intros Hp Hh target w'. subst target w'.
  destruct (token self) as [tok|] eqn:Ht.
  - split; [|split].
    + rewrite (_go_run self op l mp w p tok h Hp Ht Hh).
      destruct (setopt URL _) as [[]|e]; [|now left].
      pose proof (post_data_offline tok mp l w) as [Hs _].
      destruct (post_data urlencode tok mp l w) as [[posting|e] w1]; simpl in *;
        [|now left].
      destruct (setopt POSTFIELDS posting) as [[]|e]; simpl; [right; eauto|now left].
    + intros tok' posting w1 [= <-] Hpost Hacc.
      now rewrite (_go_taken self op l mp w p tok h posting w1 Hp Ht Hh Hpost Hacc).
    + intros tok' e [= <-] Hu.
      now rewrite (_go_run self op l mp w p tok h Hp Ht Hh), Hu.
  - split; [|split; discriminate]. left.
    unfold _go, _execute. now rewrite Hp, Ht.
Qed.

(** ** The response envelope (C4) *)

(** C4: when the call has sent its request and the reply parses to an
    envelope, a null [error_code] makes the call return [result] as it is,
    and any other [error_code] makes it raise the API error whose message
    is [error_info]. *)
Theorem call_envelope self op l mp w p tok h posting w1 b rest env :
  prefix self = Some p -> token self = Some tok -> host self = Some h ->
  post_data urlencode tok mp l w = (Ok posting, w1) ->
  accepted setopt {| url := h +:+ "/api/" +:+ p +:+ "." +:+ op;
                     postfields := posting |} ->
  inbox w = Body b :: rest ->
  json_loads b = Ok (VDict env) ->
  (forall r, dict_get "error_code" env = Some VNone ->
             dict_get "result" env = Some r ->
             (_go urlencode json_loads setopt self op l mp w).1 = Ok r)
  /\ (forall code info, dict_get "error_code" env = Some code ->
                        code <> VNone ->
                        dict_get "error_info" env = Some info ->
                        (_go urlencode json_loads setopt self op l mp w).1
                        = Raise (ApiError info)).
Proof.
  intros Hp Ht Hh Hpost Hacc Hin Hjs.
  rewrite (_go_taken self op l mp w p tok h posting w1 Hp Ht Hh Hpost Hacc), Hin.
  simpl. unfold data_back. rewrite Hjs. simpl. split.
  - intros r Hc Hr. now rewrite Hc, Hr.
  - intros code info Hc Hne Hi. rewrite Hc. simpl. rewrite Hi.
    now destruct code.
Qed.

(** ** The caller's mapping in standard mode (C9) *)

(** C9: a configured call in standard mode whose parameters are a mapping
    of the caller writes into that very mapping, once the handle has taken
    the URL: whatever the call then returns or raises, the caller's
    reference holds the mapping with ["api.token"] bound to the token, in
    place of any value it had there, every other entry being as before, and
    nothing else in the store has changed. *)
Theorem standard_call_mutates_mapping self op l w p tok h kvs :
  prefix self = Some p -> token self = Some tok -> host self = Some h ->
  setopt URL (h +:+ "/api/" +:+ p +:+ "." +:+ op) = Ok tt ->
  heap w !! l = Some (VDict kvs) ->
  let w' := (_go urlencode json_loads setopt self op l false w).2 in
  let kvs' := dict_set "api.token" (VStr tok) kvs in
  heap w' = <[l := VDict kvs']> (heap w)
  /\ dict_get "api.token" kvs' = Some (VStr tok)
  /\ (forall k, k <> "api.token" -> dict_get k kvs' = dict_get k kvs)
  /\ filter (fun kv => kv.1 <> "api.token") kvs'
     = filter (fun kv => kv.1 <> "api.token") kvs.
Proof.
  intros Hp Ht Hh Hu Hl w' kvs'. subst w' kvs'.
  split; [|split; [apply dict_get_set_eq|split;
                   [intros k Hk; now apply dict_get_set_ne | apply dict_set_others]]].
  rewrite (_go_run self op l false w p tok h Hp Ht Hh), Hu.
  assert (Hd : deref w l = VDict kvs) by (now apply lookup_total_correct).
  unfold post_data, bind, read, ret, setitem, lift. rewrite Hd. simpl. rewrite Hd.
  assert (Hd' : deref (store l (VDict (dict_set "api.token" (VStr tok) kvs)) w) l
                = VDict (dict_set "api.token" (VStr tok) kvs)).
  { unfold deref, store. simpl. now rewrite lookup_total_insert_eq. }
  rewrite Hd'.
  destruct (urlencode _) as [body|e]; [|reflexivity].
  now destruct (setopt POSTFIELDS body) as [[]|e].
Qed.

(** ** Manual bodies (C2, C10) *)

Lemma manual_post_data tok l w :
  post_data urlencode tok true l w =
    (do fields <- manual_fields tok (deref w l);
     Ok (String.concat "&" fields), w).
Proof.
  unfold post_data, bind, read, lift, ret.
  now destruct (manual_fields tok (deref w l)).
Qed.

(** C10: a non-empty string passed as the whole parameter tree is accepted
    by the encoder and the dispatcher: it encodes to the one pair with the
    empty name, and the body built for the manual request is
    ["api.token=<token>&="] followed by the string; that is the body of the
    request that goes out when the handle takes the URL and the body. *)
Theorem manual_call_bare_string self op l w p tok h s :
  prefix self = Some p -> token self = Some tok -> host self = Some h ->
  heap w !! l = Some (VStr s) -> s <> "" ->
  _encode "" (VStr s) false = Ok ["" +:+ "=" +:+ s]
  /\ post_data urlencode tok true l w
     = (Ok ("api.token=" +:+ tok +:+ "&=" +:+ s), w)
  /\ (accepted setopt {| url := h +:+ "/api/" +:+ p +:+ "." +:+ op;
                         postfields := "api.token=" +:+ tok +:+ "&=" +:+ s |} ->
      sent (_go urlencode json_loads setopt self op l true w).2 =
      sent w ++ [{| url := h +:+ "/api/" +:+ p +:+ "." +:+ op;
                    postfields := "api.token=" +:+ tok +:+ "&=" +:+ s |}]).
Proof.
  intros Hp Ht Hh Hl Hs. split; [reflexivity|].
  assert (Hd : deref w l = VStr s) by (now apply lookup_total_correct).
  assert (Hpost : post_data urlencode tok true l w
                  = (Ok ("api.token=" +:+ tok +:+ "&=" +:+ s), w)).
  { rewrite manual_post_data, Hd.
    destruct s as [|x s]; [congruence|]. reflexivity. }
  split; [exact Hpost|]. intros Hacc.
  now rewrite (_go_taken self op l true w p tok h _ w Hp Ht Hh Hpost Hacc).
Qed.

(** C2 (amended): for a configured call in manual mode the body that is
    built is the ['&']-join of [api.token=<token>] followed by the pairs of
    the parameter tree exactly as the encoder gives them, whenever the
    encoder gives them and the tree is not the empty string; absent
    parameters and the empty string add no pair. That body is the body of
    the request when the handle takes the URL and the body, and a body that
    is sent always begins with [api.token=<token>]. *)
Theorem manual_body self op l w p tok h :
  prefix self = Some p -> token self = Some tok -> host self = Some h ->
  let target := h +:+ "/api/" +:+ p +:+ "." +:+ op in
  let w' := (_go urlencode json_loads setopt self op l true w).2 in
  (deref w l = VNone \/ deref w l = VStr "" ->
   post_data urlencode tok true l w = (Ok ("api.token=" +:+ tok), w)
   /\ (accepted setopt {| url := target; postfields := "api.token=" +:+ tok |} ->
       sent w' = sent w ++ [{| url := target;
                               postfields := "api.token=" +:+ tok |}]))
  /\ (forall fs, deref w l <> VStr "" ->
                 _encode "" (deref w l) false = Ok fs ->
                 post_data urlencode tok true l w
                 = (Ok (String.concat "&" (("api.token=" +:+ tok) :: fs)), w)
                 /\ (accepted setopt
                       {| url := target;
                          postfields :=
                            String.concat "&" (("api.token=" +:+ tok) :: fs) |} ->
                     sent w' = sent w ++
                       [{| url := target;
                           postfields :=
                             String.concat "&" (("api.token=" +:+ tok) :: fs) |}]))
  /\ (sent w' = sent w
      \/ exists rest, sent w' = sent w ++
           [{| url := target; postfields := "api.token=" +:+ tok +:+ rest |}]).
Proof.
  intros Hp Ht Hh target w'. subst target w'.
  split; [|split].
  - intros E.
    assert (Hpost : post_data urlencode tok true l w
                    = (Ok ("api.token=" +:+ tok), w)).
    { rewrite manual_post_data. destruct E as [E|E]; rewrite E; reflexivity. }
    split; [exact Hpost|]. intros Hacc.
    now rewrite (_go_taken self op l true w p tok h _ w Hp Ht Hh Hpost Hacc).
  - intros fs Hne Hfs.
    assert (Hpost : post_data urlencode tok true l w
                    = (Ok (String.concat "&" (("api.token=" +:+ tok) :: fs)), w)).
    { rewrite manual_post_data. unfold manual_fields.
      destruct (deref w l) as [| b | z | s | vs | kvs]; try discriminate.
      + destruct s as [|x s]; [congruence|]. simpl in *. now injection Hfs as <-.
      + destruct vs as [|v vs]; [simpl in *; now injection Hfs as <-|].
        cbn [len rbind length Nat.ltb Nat.leb _build].
        rewrite Hfs. reflexivity.
      + destruct kvs as [|kv kvs]; [simpl in *; now injection Hfs as <-|].
        cbn [len rbind length Nat.ltb Nat.leb _build].
        rewrite Hfs. reflexivity. }
    split; [exact Hpost|]. intros Hacc.
    now rewrite (_go_taken self op l true w p tok h _ w Hp Ht Hh Hpost Hacc).
  - rewrite (_go_run self op l true w p tok h Hp Ht Hh), manual_post_data.
    destruct (setopt URL _) as [[]|e]; [|now left].
    destruct (manual_fields tok (deref w l)) as [fields|e] eqn:E; simpl; [|now left].
    destruct (setopt POSTFIELDS _) as [[]|e]; simpl; [|now left].
    right. unfold manual_fields in E. simpl in E.
    destruct (match deref w l with VNone => _ | _ => _ end) as [fs|]; [|discriminate].
    simpl in E. injection E as <-.
    destruct (concat_cons_begins "&" ("api.token=" +:+ tok) fs) as [rest Hr].
    exists rest. change ("api.token" +:+ "=" +:+ tok) with ("api.token=" +:+ tok).
    now rewrite Hr.
Qed.

End DispatcherFacts.

(** * The theorems at concrete inputs *)

Lemma call_unconfigured_witness :
  let w := world_with (VDict [("status", VStr "status-open")]) "reply-ok" in
  let no_prefix := {| token := Some "t"; host := Some "h"; prefix := None |} in
  let no_token := {| token := None; host := Some "h"; prefix := Some "user" |} in
  let no_host := {| token := Some "t"; host := None; prefix := Some "user" |} in
  (exists e, ConfigurationError e /\
     _go stub_urlencode scripted_loads ascii_setopt no_prefix "query" 1%positive true w = (Raise e, w))
  /\ (exists e, ConfigurationError e /\
     _go stub_urlencode scripted_loads ascii_setopt no_token "query" 1%positive true w = (Raise e, w))
  /\ (exists e, ConfigurationError e /\
     _go stub_urlencode scripted_loads ascii_setopt no_host "query" 1%positive false w = (Raise e, w)).
Proof.
  intros w no_prefix no_token no_host.
  split; [|split].
  - apply (call_unconfigured stub_urlencode scripted_loads ascii_setopt no_prefix).
    left. reflexivity.
  - apply (call_unconfigured stub_urlencode scripted_loads ascii_setopt no_token).
    right. left. reflexivity.
  - apply (call_unconfigured stub_urlencode scripted_loads ascii_setopt no_host).
    right. right. reflexivity.
Defined.

Lemma call_url_witness :
  let w := world_with (VDict [("status", VStr "status-open")]) "reply-ok" in
  prefix a_client = Some "user"
  /\ host a_client = Some "https://phab.example"
  /\ sent (_go stub_urlencode scripted_loads ascii_setopt a_client "query" 1%positive true w).2 =
     [{| url := "https://phab.example/api/user.query";
         postfields := "api.token=api-abc&status=status-open" |}].
Proof.
  intros w. split; [reflexivity|split; [reflexivity|]].
  apply (proj1 (proj2 (call_url stub_urlencode scripted_loads ascii_setopt
                         a_client "query" 1%positive true w "user"
                         "https://phab.example" eq_refl eq_refl))
           "api-abc" "api.token=api-abc&status=status-open" w).
  - reflexivity.
  - vm_compute. reflexivity.
  - split; vm_compute; reflexivity.
Defined.

Lemma call_envelope_witness :
  let tree := VDict [("status", VStr "status-open")] in
  (_go stub_urlencode scripted_loads ascii_setopt a_client "query" 1%positive true
     (world_with tree "reply-ok")).1
  = Ok (VDict [("phid", VStr "PHID-USER-1")])
  /\ (_go stub_urlencode scripted_loads ascii_setopt a_client "query" 1%positive true
        (world_with tree "reply-bad-token")).1
     = Raise (ApiError (VStr "Invalid token.")).
Proof.
  intros tree. split.
  - apply (proj1 (call_envelope stub_urlencode scripted_loads ascii_setopt a_client "query"
                    1%positive true (world_with tree "reply-ok")
                    "user" "api-abc" "https://phab.example"
                    "api.token=api-abc&status=status-open"
                    (world_with tree "reply-ok") "reply-ok" []
                    [("result", VDict [("phid", VStr "PHID-USER-1")]);
                     ("error_code", VNone); ("error_info", VNone)]
                    eq_refl eq_refl eq_refl ltac:(vm_compute; reflexivity)
                    ltac:(split; vm_compute; reflexivity)
                    eq_refl eq_refl));
      reflexivity.
  - apply (proj2 (call_envelope stub_urlencode scripted_loads ascii_setopt a_client "query"
                    1%positive true (world_with tree "reply-bad-token")
                    "user" "api-abc" "https://phab.example"
                    "api.token=api-abc&status=status-open"
                    (world_with tree "reply-bad-token") "reply-bad-token" []
                    [("result", VNone); ("error_code", VStr "ERR-BAD-TOKEN");
                     ("error_info", VStr "Invalid token.")]
                    eq_refl eq_refl eq_refl ltac:(vm_compute; reflexivity)
                    ltac:(split; vm_compute; reflexivity)
                    eq_refl eq_refl) (VStr "ERR-BAD-TOKEN"));
      [reflexivity | discriminate | reflexivity].
Defined.

Lemma standard_call_mutates_mapping_witness :
  let page := [("slug", VStr "home"); ("api.token", VStr "stale");
               ("title", VStr "Home")] in
  let w := world_with (VDict page) "reply-bad-token" in
  heap w !! 1%positive = Some (VDict page)
  /\ heap (_go stub_urlencode scripted_loads ascii_setopt a_client "edit" 1%positive false w).2
     = <[1%positive := VDict [("slug", VStr "home"); ("api.token", VStr "api-abc");
                              ("title", VStr "Home")]]> (heap w).
Proof.
  intros page w. split; [reflexivity|].
  apply (standard_call_mutates_mapping stub_urlencode scripted_loads
           ascii_setopt a_client "edit" 1%positive w "user" "api-abc"
           "https://phab.example" page eq_refl eq_refl eq_refl
           ltac:(vm_compute; reflexivity) eq_refl).
Defined.

Lemma manual_call_bare_string_witness :
  let w := world_with (VStr "x") "reply-ok" in
  heap w !! 1%positive = Some (VStr "x")
  /\ sent (_go stub_urlencode scripted_loads ascii_setopt a_client "query" 1%positive true w).2 =
     [{| url := "https://phab.example/api/user.query";
         postfields := "api.token=api-abc&=x" |}].
Proof.
  intros w. split; [reflexivity|].
  apply (manual_call_bare_string stub_urlencode scripted_loads ascii_setopt
           a_client "query" 1%positive w "user" "api-abc"
           "https://phab.example" "x" eq_refl eq_refl eq_refl eq_refl).
  - discriminate.
  - split; vm_compute; reflexivity.
Defined.

Lemma manual_body_witness :
  let tree := VDict [("queryKey", VStr "upcoming");
                     ("constraints", VDict [("subscribers", VList [VStr "P&Q"])])] in
  let w := world_with tree "reply-ok" in
  _encode "" tree false = Ok ["queryKey=upcoming"; "constraints[subscribers][0]=P&Q"]
  /\ sent (_go stub_urlencode scripted_loads ascii_setopt a_client "search" 1%positive true w).2 =
     [{| url := "https://phab.example/api/user.search";
         postfields :=
           "api.token=api-abc&queryKey=upcoming&constraints[subscribers][0]=P&Q" |}].
Proof.
  intros tree w. split; [vm_compute; reflexivity|].
  apply (proj1 (proj2 (manual_body stub_urlencode scripted_loads ascii_setopt
                         a_client "search" 1%positive w "user" "api-abc"
                         "https://phab.example" eq_refl eq_refl eq_refl))
           ["queryKey=upcoming"; "constraints[subscribers][0]=P&Q"]).
  - vm_compute. discriminate.
  - vm_compute. reflexivity.
  - split; vm_compute; reflexivity.
Defined.

(** C2, as stated, fails for a parameter tree the encoder rejects (no body
    is built and nothing is sent), for the empty string as the whole tree
    (the encoder gives the pair ["="], the body has the token alone), and
    for a body the handle refuses: with a [setopt] that takes ASCII only, a
    value that is not ASCII makes the call raise [UnicodeEncodeError] with
    nothing sent. *)
Lemma manual_body_counterexample :
  _go stub_urlencode scripted_loads ascii_setopt a_client "query" 1%positive true
    (world_with (VDict [("ids", VList [VDict [("id", VStr "7")]])]) "reply-ok")
  = (Raise TypeError,
     world_with (VDict [("ids", VList [VDict [("id", VStr "7")]])]) "reply-ok")
  /\ _go stub_urlencode scripted_loads ascii_setopt a_client "query" 1%positive true
       (world_with (VDict [("a", VStr e_acute)]) "reply-ok")
     = (Raise UnicodeEncodeError,
        world_with (VDict [("a", VStr e_acute)]) "reply-ok")
  /\ exists fs,
       _encode "" (VStr "") false = Ok fs
       /\ sent (_go stub_urlencode scripted_loads ascii_setopt a_client "query" 1%positive true
                  (world_with (VStr "") "reply-ok")).2
          = [{| url := "https://phab.example/api/user.query";
                postfields := "api.token=api-abc" |}]
       /\ sent (_go stub_urlencode scripted_loads ascii_setopt a_client "query" 1%positive true
                  (world_with (VStr "") "reply-ok")).2
          <> [{| url := "https://phab.example/api/user.query";
                 postfields := String.concat "&" ("api.token=api-abc" :: fs) |}].
Proof.
  split; [vm_compute; reflexivity|]. split; [vm_compute; reflexivity|].
  exists ["="]. repeat split; try (vm_compute; reflexivity).
  vm_compute. discriminate.
Qed.

(** * Further properties of the encoder *)

Lemma _encode_list_from_all_str i p vs :
  forallb is_str vs = true -> exists out, _encode_list_from i p vs = Ok out.
Proof.
  revert i. induction vs as [|v vs IH]; intros i H; simpl in *; [eauto|].
  apply andb_prop in H as [Hv Hvs].
  destruct v; try discriminate. simpl.
  destruct (IH (S i) Hvs) as [out ->]. simpl. eauto.
Qed.

Lemma _encode_list_from_some_not_str i p vs :
  forallb is_str vs = false -> _encode_list_from i p vs = Raise TypeError.
Proof.
  revert i. induction vs as [|v vs IH]; intros i H; simpl in *; [discriminate|].
  destruct v; simpl in *; try reflexivity.
  now rewrite IH.
Qed.

Lemma encodable_dict_cons k x kvs :
  encodable (VDict ((k, x) :: kvs)) = encodable x && encodable (VDict kvs).
Proof. reflexivity. Qed.

Lemma leaves_dict_cons k x kvs :
  leaves (VDict ((k, x) :: kvs)) = leaves x + leaves (VDict kvs).
Proof. reflexivity. Qed.

Lemma _encode_encodable v :
  forall p c, encodable v = true -> exists out, _encode p v c = Ok out.
Proof.
  induction v as [| b | z | s | vs _ | kvs IH] using value_ind'; intros p c H;
    try discriminate.
  - simpl. eauto.
  - simpl. now apply _encode_list_from_all_str.
  - rewrite _encode_dict_eq. revert p c H.
    induction IH as [|[k x] kvs Hx _ IHk]; intros p c H; [simpl; eauto|].
    simpl in Hx.
    rewrite encodable_dict_cons in H. apply andb_prop in H as [H1 H2].
    simpl. destruct (Hx (if c then p +:+ "[" +:+ k +:+ "]" else k) true H1) as [es ->].
    destruct (IHk p c H2) as [fs ->]. simpl. eauto.
Qed.

Lemma _encode_not_encodable v :
  forall p c, encodable v = false -> _encode p v c = Raise TypeError.
Proof.
  induction v as [| b | z | s | vs _ | kvs IH] using value_ind'; intros p c H;
    try reflexivity; try discriminate.
  - simpl. now apply _encode_list_from_some_not_str.
  - rewrite _encode_dict_eq. revert p c H.
    induction IH as [|[k x] kvs Hx _ IHk]; intros p c H; [discriminate|].
    simpl in Hx.
    rewrite encodable_dict_cons in H. simpl.
    destruct (encodable x) eqn:Ex; simpl in H.
    + destruct (_encode_encodable x (if c then p +:+ "[" +:+ k +:+ "]" else k) true Ex)
        as [es ->].
      simpl. now rewrite (IHk p c H).
    + now rewrite (Hx _ true eq_refl).
Qed.

(** X1: the encoder returns its pairs exactly on the trees made of strings,
    sequences of strings and mappings of such trees; on every other tree it
    raises [TypeError], whatever the prefix and the flag. *)
Theorem encode_succeeds_iff_encodable (p : string) (v : value) (c : bool) :
  (encodable v = true /\ exists out, _encode p v c = Ok out)
  \/ (encodable v = false /\ _encode p v c = Raise TypeError).
Proof.
  destruct (encodable v) eqn:E.
  - left. split; [reflexivity|]. now apply _encode_encodable.
  - right. split; [reflexivity|]. now apply _encode_not_encodable.
Qed.

Lemma _encode_list_from_length i p vs out :
  _encode_list_from i p vs = Ok out -> length out = length vs.
Proof.
  revert i out. induction vs as [|v vs IH]; intros i out; simpl.
  - now intros [= <-].
  - destruct (_build _ v) as [f|]; simpl; [|discriminate].
    destruct (_encode_list_from (S i) p vs) as [fs|] eqn:E; simpl; [|discriminate].
    intros [= <-]. simpl. f_equal. eauto.
Qed.

(** X2: when the encoder returns, it has produced one pair per string of
    the tree: one for a string, one per element of a sequence, and for a
    mapping the pairs of its values together. *)
Theorem encode_pair_count (v : value) :
  forall p c out, _encode p v c = Ok out -> length out = leaves v.
Proof.
  induction v as [| b | z | s | vs _ | kvs IH] using value_ind'; intros p c out;
    try (simpl; discriminate).
  - simpl. now intros [= <-].
  - simpl. apply _encode_list_from_length.
  - rewrite _encode_dict_eq. revert p c out.
    induction IH as [|[k x] kvs Hx _ IHk]; intros p c out; simpl _encode_dict.
    + now intros [= <-].
    + rewrite leaves_dict_cons. simpl in Hx.
      destruct (_encode _ x true) as [es|] eqn:Ex; simpl; [|discriminate].
      destruct (_encode_dict p kvs c) as [fs|] eqn:Ek; simpl; [|discriminate].
      intros [= <-]. rewrite length_app. f_equal; eauto.
Qed.

Lemma encode_pair_count_witness :
  _encode "" (VDict [("status", VStr "open"); ("ids", VList [VStr "1"; VStr "2"])])
    false = Ok ["status=open"; "ids[0]=1"; "ids[1]=2"]
  /\ length ["status=open"; "ids[0]=1"; "ids[1]=2"] = 3.
Proof.
  split; [vm_compute; reflexivity|].
  apply (encode_pair_count
           (VDict [("status", VStr "open"); ("ids", VList [VStr "1"; VStr "2"])])
           "" false).
  vm_compute. reflexivity.
Defined.

Lemma leaf_paths_dict_cons k x kvs :
  leaf_paths (VDict ((k, x) :: kvs))
  = ((fun ps => (k :: ps.1, ps.2)) <$> leaf_paths x) ++ leaf_paths (VDict kvs).
Proof. reflexivity. Qed.

Lemma _encode_list_from_paths i p vs out :
  _encode_list_from i p vs = Ok out ->
  out = (fun ps => p +:+ brackets ps.1 +:+ "=" +:+ ps.2) <$> list_paths i vs.
Proof.
  revert i out. induction vs as [|v vs IH]; intros i out; simpl.
  - now intros [= <-].
  - destruct v as [| b | z | s | ws | kvs]; simpl; try discriminate.
    destruct (_encode_list_from (S i) p vs) as [fs|] eqn:E; simpl; [|discriminate].
    intros [= <-]. f_equal; [|now apply IH].
    cbn [fst snd brackets]. now autorewrite with strings.
Qed.

Lemma _encode_paths v :
  forall p out, _encode p v true = Ok out ->
    out = (fun ps => p +:+ brackets ps.1 +:+ "=" +:+ ps.2) <$> leaf_paths v.
Proof.
  induction v as [| b | z | s | vs _ | kvs IH] using value_ind'; intros p out;
    try (simpl; discriminate).
  - simpl. now intros [= <-].
  - simpl. apply _encode_list_from_paths.
  - rewrite _encode_dict_eq. revert out.
    induction IH as [|[k x] kvs Hx _ IHk]; intros out; simpl _encode_dict.
    + now intros [= <-].
    + simpl in Hx. rewrite leaf_paths_dict_cons.
      destruct (_encode _ x true) as [es|] eqn:Ex; simpl; [|discriminate].
      destruct (_encode_dict p kvs true) as [fs|] eqn:Ek; simpl; [|discriminate].
      intros [= <-]. rewrite fmap_app, <- list_fmap_compose.
      f_equal; [|now apply IHk].
      rewrite (Hx _ _ Ex). apply list_fmap_ext. intros i [ks s] _.
      cbn [fst snd brackets compose]. now autorewrite with strings.
Qed.

Lemma _encode_dict_top p q kvs : _encode_dict p kvs false = _encode_dict q kvs false.
Proof.
  induction kvs as [|[k x] kvs IH]; [reflexivity|].
  simpl. now rewrite IH.
Qed.

(** X3: the names the encoder gives. Under a name [p], the pairs of a
    subtree are, string by string in the order of the tree, the name [p],
    then one bracket group for each key or index on the way from the root of
    the subtree down to the string, then ["="] and the string. At the top
    level of a mapping the given prefix is not used: the result is the same
    under every prefix, and each pair starts with a key of the mapping
    itself, bare, with only the further keys and indices in brackets. *)
Theorem encode_names_extend_prefix (p q : string) (v : value)
    (kvs : list (string * value)) (out : list string) :
  (_encode p v true = Ok out ->
   out = (fun ps => p +:+ brackets ps.1 +:+ "=" +:+ ps.2) <$> leaf_paths v)
  /\ (_encode p (VDict kvs) false = Ok out ->
      out = (fun ps => field_name ps.1 +:+ "=" +:+ ps.2) <$> leaf_paths (VDict kvs))
  /\ _encode p (VDict kvs) false = _encode q (VDict kvs) false
  /\ Forall (fun ps => exists k ks, ps.1 = k :: ks /\ k ∈ kvs.*1)
       (leaf_paths (VDict kvs)).
Proof.
  split; [apply _encode_paths|]. split; [|split].
  - rewrite _encode_dict_eq. revert out.
    induction kvs as [|[k x] kvs IH]; intros out; simpl _encode_dict.
    + now intros [= <-].
    + rewrite leaf_paths_dict_cons.
      destruct (_encode k x true) as [es|] eqn:Ex; simpl; [|discriminate].
      destruct (_encode_dict p kvs false) as [fs|] eqn:Ek; simpl; [|discriminate].
      intros [= <-]. rewrite fmap_app, <- list_fmap_compose.
      f_equal; [|now apply IH].
      rewrite (_encode_paths _ _ _ Ex). apply list_fmap_ext. intros i [ks s] _.
      unfold compose. cbn [fst snd field_name]. now rewrite append_assoc.
  - rewrite !_encode_dict_eq. apply _encode_dict_top.
  - induction kvs as [|[k x] kvs IH]; [constructor|].
    rewrite leaf_paths_dict_cons. apply Forall_app. split.
    + apply Forall_fmap, Forall_forall. intros [ks s] _.
      exists k, ks. split; [reflexivity|]. rewrite fmap_cons. apply list_elem_of_here.
    + eapply Forall_impl; [exact IH|].
      intros [ks s] (k' & ks' & E & Hin). exists k', ks'. split; [exact E|].
      rewrite fmap_cons. now apply list_elem_of_further.
Qed.

Lemma encode_names_extend_prefix_witness :
  ["ids[0]=a"; "ids[1]=b"]
  = (fun ps => "ids" +:+ brackets ps.1 +:+ "=" +:+ ps.2)
      <$> [(["0"], "a"); (["1"], "b")]
  /\ ["c[s][0]=P"]
     = (fun ps => field_name ps.1 +:+ "=" +:+ ps.2) <$> [(["c"; "s"; "0"], "P")].
Proof.
  split.
  - apply (proj1 (encode_names_extend_prefix "ids" "" (VList [VStr "a"; VStr "b"])
                    [] ["ids[0]=a"; "ids[1]=b"])).
    vm_compute. reflexivity.
  - apply (proj1 (proj2 (encode_names_extend_prefix "ignored" "" VNone
                    [("c", VDict [("s", VList [VStr "P"])])] ["c[s][0]=P"]))).
    vm_compute. reflexivity.
Defined.

(** * Further properties of the dispatcher *)

Lemma deref_store_eq l v w : deref (store l v w) l = v.
Proof. unfold deref, store. simpl. apply lookup_total_insert_eq. Qed.

Lemma store_store l v v' w : store l v' (store l v w) = store l v' w.
Proof. unfold store. simpl. now rewrite insert_insert_eq. Qed.

Lemma fresh_unused (w : world) : heap w !! fresh (dom (heap w)) = None.
Proof. apply not_elem_of_dom. apply is_fresh. Qed.

Lemma store_fresh_keeps w v l' x :
  heap w !! l' = Some x ->
  heap (store (fresh (dom (heap w))) v w) !! l' = Some x.
Proof.
  intros H. unfold store. simpl. rewrite lookup_insert_ne; [exact H|].
  intros E. rewrite <- E, fresh_unused in H. discriminate.
Qed.

Lemma dict_set_twice k v v' d : dict_set k v' (dict_set k v d) = dict_set k v' d.
Proof.
  induction d as [|[k0 x] d IH]; simpl.
  - now rewrite String.eqb_refl.
  - destruct (String.eqb k k0) eqn:E; simpl.
    + now rewrite String.eqb_refl.
    + now rewrite E, IH.
Qed.

Lemma dict_set_new k v d : k ∉ d.*1 -> dict_set k v d = d ++ [(k, v)].
Proof.
  induction d as [|[k0 x] d IH]; simpl; [reflexivity|].
  intros H. apply not_elem_of_cons in H as [Hne Hd].
  apply String.eqb_neq in Hne. rewrite Hne. now rewrite IH.
Qed.

Lemma standard_post_data_dict urlencode tok l w kvs :
  deref w l = VDict kvs ->
  post_data urlencode tok false l w =
    (urlencode (VDict (dict_set "api.token" (VStr tok) kvs)),
     store l (VDict (dict_set "api.token" (VStr tok) kvs)) w).
Proof.
  intros Hd. unfold post_data, bind, read, ret, setitem, lift.
  rewrite Hd. simpl. rewrite Hd, deref_store_eq.
  now destruct (urlencode _).
Qed.

Lemma standard_post_data_none urlencode tok l w :
  deref w l = VNone ->
  post_data urlencode tok false l w =
    (urlencode (VDict [("api.token", VStr tok)]),
     store (fresh (dom (heap w))) (VDict [("api.token", VStr tok)]) w).
Proof.
  intros Hd. unfold post_data, bind, read, ret, setitem, lift, new_dict.
  rewrite Hd. generalize (fresh (dom (heap w))). intros l'.
  cbv beta iota zeta. rewrite deref_store_eq.
  cbv beta iota zeta. rewrite deref_store_eq, store_store.
  now destruct (urlencode _).
Qed.

Lemma standard_post_data_other urlencode tok l w :
  deref w l <> VNone -> (forall kvs, deref w l <> VDict kvs) ->
  post_data urlencode tok false l w = (Raise TypeError, w).
Proof.
  intros HN HD. unfold post_data, bind, read, ret, setitem, lift.
  destruct (deref w l) as [| b | z | s | vs | kvs] eqn:E; simpl;
    rewrite ?E; try reflexivity; [congruence | now destruct (HD kvs)].
Qed.

Lemma manual_fields_ok tok v :
  manual_ok v = true ->
  exists fs, manual_fields tok v = Ok (("api.token=" +:+ tok) :: fs).
Proof.
  intros H. unfold manual_fields.
  destruct v as [| b | z | s | vs | kvs]; try discriminate.
  - simpl. eauto.
  - destruct s; simpl; eauto.
  - destruct vs as [|x vs]; [simpl; eauto|].
    destruct (_encode_encodable (VList (x :: vs)) "" false H) as [fs E].
    cbn [_build rbind len length Nat.ltb Nat.leb]. rewrite E. simpl. eauto.
  - destruct kvs as [|x kvs]; [simpl; eauto|].
    destruct (_encode_encodable (VDict (x :: kvs)) "" false H) as [fs E].
    cbn [_build rbind len length Nat.ltb Nat.leb]. rewrite E. simpl. eauto.
Qed.

Lemma manual_fields_raise tok v :
  manual_ok v = false -> manual_fields tok v = Raise TypeError.
Proof.
  intros H. unfold manual_fields.
  destruct v as [| b | z | s | vs | kvs]; try discriminate; try reflexivity.
  - destruct vs as [|x vs]; [discriminate|].
    pose proof (_encode_not_encodable (VList (x :: vs)) "" false H) as E.
    cbn [_build rbind len length Nat.ltb Nat.leb]. now rewrite E.
  - destruct kvs as [|x kvs]; [discriminate|].
    pose proof (_encode_not_encodable (VDict (x :: kvs)) "" false H) as E.
    cbn [_build rbind len length Nat.ltb Nat.leb]. now rewrite E.
Qed.

(** What a configured call does, step by step, with the library in place. *)
Lemma go_run lib self op l mp w p tok h :
  prefix self = Some p -> token self = Some tok -> host self = Some h ->
  go lib self op l mp w =
    match lib_setopt lib URL (h +:+ "/api/" +:+ p +:+ "." +:+ op) with
    | Raise e => (Raise e, w)
    | Ok _ =>
        match post_data (lib_urlencode lib) tok mp l w with
        | (Ok posting, w1) =>
            match lib_setopt lib POSTFIELDS posting with
            | Raise e => (Raise e, w1)
            | Ok _ =>
                (answer lib w,
                 after_request {| url := h +:+ "/api/" +:+ p +:+ "." +:+ op;
                                  postfields := posting |}
                   {| heap := heap w1; sent := sent w; inbox := inbox w |})
            end
        | (Raise e, w1) => (Raise e, w1)
        end
    end.
Proof. intros Hp Ht Hh. unfold go. now rewrite (_go_run _ _ _ self op l mp w p tok h). Qed.

(** X4: the manual body does not tell a value that contains ["&"] and ["="]
    from two entries: for the mapping with the one entry [k1: v1&k2=v2] and
    for the mapping with the two entries [k1: v1], [k2: v2] the same body is
    built, so that the two calls send the same, and when the handle takes
    the URL and that body, the same request. *)
Theorem manual_body_ambiguous lib self op l1 l2 w1 w2 p tok h k1 v1 k2 v2 :
  prefix self = Some p -> token self = Some tok -> host self = Some h ->
  heap w1 !! l1 = Some (VDict [(k1, VStr (v1 +:+ "&" +:+ k2 +:+ "=" +:+ v2))]) ->
  heap w2 !! l2 = Some (VDict [(k1, VStr v1); (k2, VStr v2)]) ->
  sent w1 = sent w2 ->
  let body := "api.token=" +:+ tok +:+ "&" +:+ k1 +:+ "="
              +:+ v1 +:+ "&" +:+ k2 +:+ "=" +:+ v2 in
  let rq := {| url := h +:+ "/api/" +:+ p +:+ "." +:+ op; postfields := body |} in
  post_data (lib_urlencode lib) tok true l1 w1 = (Ok body, w1)
  /\ post_data (lib_urlencode lib) tok true l2 w2 = (Ok body, w2)
  /\ sent (go lib self op l1 true w1).2 = sent (go lib self op l2 true w2).2
  /\ (accepted (lib_setopt lib) rq ->
      sent (go lib self op l1 true w1).2 = sent w1 ++ [rq]).
Proof.
  intros Hp Ht Hh H1 H2 Hs body rq. subst rq.
  assert (D1 : deref w1 l1 = VDict [(k1, VStr (v1 +:+ "&" +:+ k2 +:+ "=" +:+ v2))])
    by (now apply lookup_total_correct).
  assert (D2 : deref w2 l2 = VDict [(k1, VStr v1); (k2, VStr v2)])
    by (now apply lookup_total_correct).
  assert (P1 : post_data (lib_urlencode lib) tok true l1 w1 = (Ok body, w1)).
  { rewrite manual_post_data, D1. simpl. subst body.
    now autorewrite with strings. }
  assert (P2 : post_data (lib_urlencode lib) tok true l2 w2 = (Ok body, w2)).
  { rewrite manual_post_data, D2. simpl. subst body.
    now autorewrite with strings. }
  split; [exact P1|]. split; [exact P2|].
  rewrite !(go_run lib self op _ true _ p tok h Hp Ht Hh), P1, P2.
  split.
  - destruct (lib_setopt lib URL _) as [[]|e]; [|exact Hs].
    destruct (lib_setopt lib POSTFIELDS body) as [[]|e]; simpl; [|exact Hs].
    now rewrite Hs.
  - intros [Hu Hb]. simpl in Hu, Hb. now rewrite Hu, Hb.
Qed.

Lemma manual_body_ambiguous_witness :
  sent (go scripted_library a_client "query" 1%positive true
          (world_with (VDict [("a", VStr "1&b=2")]) "reply-ok")).2
  = sent (go scripted_library a_client "query" 1%positive true
            (world_with (VDict [("a", VStr "1"); ("b", VStr "2")]) "reply-ok")).2.
Proof.
  apply (proj1 (proj2 (proj2
           (manual_body_ambiguous scripted_library a_client "query" 1%positive
              1%positive
              (world_with (VDict [("a", VStr "1&b=2")]) "reply-ok")
              (world_with (VDict [("a", VStr "1"); ("b", VStr "2")]) "reply-ok")
              "user" "api-abc" "https://phab.example" "a" "1" "b" "2"
              eq_refl eq_refl eq_refl eq_refl eq_refl eq_refl)))).
Defined.

(** X5: a call in manual mode only reads its parameters: whatever it returns
    or raises, the store is as it was. *)
Theorem manual_call_keeps_store lib self op l w :
  heap (go lib self op l true w).2 = heap w.
Proof.
  destruct (prefix self) as [p|] eqn:Hp;
    [|unfold go, _go; now rewrite Hp].
  destruct (token self) as [tok|] eqn:Ht;
    [|unfold go, _go, _execute; now rewrite Hp, Ht].
  destruct (host self) as [h|] eqn:Hh;
    [|unfold go, _go, _execute; now rewrite Hp, Ht, Hh].
  rewrite (go_run lib self op l true w p tok h Hp Ht Hh), manual_post_data.
  destruct (lib_setopt lib URL _) as [[]|e]; [|reflexivity].
  destruct (manual_fields tok (deref w l)) as [fields|e]; simpl; [|reflexivity].
  now destruct (lib_setopt lib POSTFIELDS _) as [[]|e].
Qed.

(** X6: a call hands at most one request to the transport, and it takes a
    reply exactly when it has handed one over: either nothing was sent and
    the replies are untouched, or one request was added and the first
    waiting reply is gone. *)
Theorem call_sends_at_most_once lib self op l mp w :
  (sent (go lib self op l mp w).2 = sent w
   /\ inbox (go lib self op l mp w).2 = inbox w)
  \/ (exists rq, sent (go lib self op l mp w).2 = sent w ++ [rq]
                 /\ inbox (go lib self op l mp w).2 = tail (inbox w)).
Proof.
  destruct (prefix self) as [p|] eqn:Hp;
    [|left; unfold go, _go; now rewrite Hp].
  destruct (token self) as [tok|] eqn:Ht;
    [|left; unfold go, _go, _execute; now rewrite Hp, Ht].
  destruct (host self) as [h|] eqn:Hh;
    [|left; unfold go, _go, _execute; now rewrite Hp, Ht, Hh].
  rewrite (go_run lib self op l mp w p tok h Hp Ht Hh).
  destruct (lib_setopt lib URL _) as [[]|e]; [|now left].
  pose proof (post_data_offline (lib_urlencode lib) tok mp l w) as Hoff.
  destruct (post_data (lib_urlencode lib) tok mp l w) as [[posting|e] w1];
    [|left; exact Hoff].
  destruct (lib_setopt lib POSTFIELDS posting) as [[]|e]; [|left; exact Hoff].
  right. eexists. split; reflexivity.
Qed.

(** X7: in standard mode, parameters that are neither [None] nor a mapping
    (a string, a sequence, a number) make the call raise with nothing sent
    and nothing changed: once the handle has taken the URL, it is the
    [TypeError] of the assignment of ["api.token"]. *)
Theorem standard_call_rejects_non_mapping lib self op l w p tok h :
  prefix self = Some p -> token self = Some tok -> host self = Some h ->
  deref w l <> VNone -> (forall kvs, deref w l <> VDict kvs) ->
  (lib_setopt lib URL (h +:+ "/api/" +:+ p +:+ "." +:+ op) = Ok tt ->
   go lib self op l false w = (Raise TypeError, w))
  /\ exists e, go lib self op l false w = (Raise e, w).
Proof.
  intros Hp Ht Hh HN HD.
  rewrite (go_run lib self op l false w p tok h Hp Ht Hh).
  rewrite standard_post_data_other by assumption.
  split; [now intros ->|].
  destruct (lib_setopt lib URL _) as [[]|e]; eauto.
Qed.

Lemma standard_call_rejects_non_mapping_witness :
  go scripted_library a_client "edit" 1%positive false
     (world_with (VList [VStr "slug"; VStr "home"]) "reply-ok")
  = (Raise TypeError, world_with (VList [VStr "slug"; VStr "home"]) "reply-ok").
Proof.
  apply (proj1 (standard_call_rejects_non_mapping scripted_library a_client "edit"
           1%positive (world_with (VList [VStr "slug"; VStr "home"]) "reply-ok")
           "user" "api-abc" "https://phab.example" eq_refl eq_refl eq_refl
           ltac:(vm_compute; discriminate)
           ltac:(intros kvs; vm_compute; discriminate))).
  vm_compute. reflexivity.
Defined.

(** X8: in standard mode with no parameters the token goes into a mapping
    of the call's own: every object of the store is still there, unchanged,
    and when the handle takes the URL and the body, the body that is sent
    is [urlencode] of the mapping with the one entry ["api.token"]; when
    [urlencode] raises, nothing is sent, and the call raises the same once
    the URL is taken. *)
Theorem standard_call_without_parameters lib self op l w p tok h :
  prefix self = Some p -> token self = Some tok -> host self = Some h ->
  deref w l = VNone ->
  (forall l' x, heap w !! l' = Some x ->
                heap (go lib self op l false w).2 !! l' = Some x)
  /\ (forall body, lib_urlencode lib (VDict [("api.token", VStr tok)]) = Ok body ->
        accepted (lib_setopt lib)
          {| url := h +:+ "/api/" +:+ p +:+ "." +:+ op; postfields := body |} ->
        sent (go lib self op l false w).2 =
        sent w ++ [{| url := h +:+ "/api/" +:+ p +:+ "." +:+ op;
                      postfields := body |}])
  /\ (forall e, lib_urlencode lib (VDict [("api.token", VStr tok)]) = Raise e ->
        sent (go lib self op l false w).2 = sent w
        /\ (lib_setopt lib URL (h +:+ "/api/" +:+ p +:+ "." +:+ op) = Ok tt ->
            (go lib self op l false w).1 = Raise e)).
Proof.
  intros Hp Ht Hh Hd.
  rewrite (go_run lib self op l false w p tok h Hp Ht Hh).
  rewrite (standard_post_data_none _ tok l w Hd).
  split; [|split].
  - intros l' x Hx.
    destruct (lib_setopt lib URL _) as [[]|e]; [|exact Hx].
    destruct (lib_urlencode lib _) as [body|e]; simpl;
      [|now apply store_fresh_keeps].
    destruct (lib_setopt lib POSTFIELDS body) as [[]|e]; simpl;
      now apply store_fresh_keeps.
  - intros body -> [Hu Hb]. simpl in Hu, Hb. now rewrite Hu, Hb.
  - intros e ->. split; [|now intros ->].
    now destruct (lib_setopt lib URL _) as [[]|e'].
Qed.

Lemma standard_call_without_parameters_witness :
  sent (go scripted_library a_client "whoami" 1%positive false
          (world_with VNone "reply-ok")).2
  = [{| url := "https://phab.example/api/user.whoami"; postfields := "form" |}].
Proof.
  apply (proj1 (proj2 (standard_call_without_parameters scripted_library a_client
                         "whoami" 1%positive (world_with VNone "reply-ok")
                         "user" "api-abc" "https://phab.example"
                         eq_refl eq_refl eq_refl eq_refl)) "form").
  - reflexivity.
  - split; vm_compute; reflexivity.
Defined.

(** X9: in standard mode with a mapping, what is sent, when the handle
    takes the URL and the body, is [urlencode] of that mapping with
    ["api.token"] set, and the token is its last entry when the caller had
    none; when [urlencode] raises, nothing is sent, and the call raises the
    same once the URL is taken. *)
Theorem standard_call_body lib self op l w p tok h kvs :
  prefix self = Some p -> token self = Some tok -> host self = Some h ->
  heap w !! l = Some (VDict kvs) ->
  (forall body,
      lib_urlencode lib (VDict (dict_set "api.token" (VStr tok) kvs)) = Ok body ->
      accepted (lib_setopt lib)
        {| url := h +:+ "/api/" +:+ p +:+ "." +:+ op; postfields := body |} ->
      sent (go lib self op l false w).2 =
      sent w ++ [{| url := h +:+ "/api/" +:+ p +:+ "." +:+ op;
                    postfields := body |}])
  /\ (forall e,
      lib_urlencode lib (VDict (dict_set "api.token" (VStr tok) kvs)) = Raise e ->
      sent (go lib self op l false w).2 = sent w
      /\ (lib_setopt lib URL (h +:+ "/api/" +:+ p +:+ "." +:+ op) = Ok tt ->
          (go lib self op l false w).1 = Raise e))
  /\ ("api.token" ∉ kvs.*1 ->
      dict_set "api.token" (VStr tok) kvs = kvs ++ [("api.token", VStr tok)]).
Proof.
  intros Hp Ht Hh Hl.
  rewrite (go_run lib self op l false w p tok h Hp Ht Hh).
  rewrite (standard_post_data_dict _ tok l w kvs)
    by (now apply lookup_total_correct).
  split; [|split].
  - intros body -> [Hu Hb]. simpl in Hu, Hb. now rewrite Hu, Hb.
  - intros e ->. split; [|now intros ->].
    now destruct (lib_setopt lib URL _) as [[]|e'].
  - apply dict_set_new.
Qed.

Lemma standard_call_body_witness :
  sent (go scripted_library a_client "edit" 1%positive false
          (world_with (VDict [("slug", VStr "home")]) "reply-ok")).2
  = [{| url := "https://phab.example/api/user.edit"; postfields := "form" |}].
Proof.
  apply (proj1 (standard_call_body scripted_library a_client "edit" 1%positive
                  (world_with (VDict [("slug", VStr "home")]) "reply-ok")
                  "user" "api-abc" "https://phab.example"
                  [("slug", VStr "home")] eq_refl eq_refl eq_refl eq_refl) "form").
  - reflexivity.
  - split; vm_compute; reflexivity.
Defined.

(** X10: a reply that is not the envelope makes the call raise, after the
    request has gone out: what [json.loads] raises is passed on; a JSON
    value that is not an object gives [TypeError]; an object without
    ["error_code"] gives [KeyError] on that key; with a null ["error_code"]
    a missing ["result"], and with any other ["error_code"] a missing
    ["error_info"], give [KeyError] on the missing key. *)
Theorem call_malformed_reply lib self op l mp w p tok h posting w1 b rest :
  prefix self = Some p -> token self = Some tok -> host self = Some h ->
  post_data (lib_urlencode lib) tok mp l w = (Ok posting, w1) ->
  accepted (lib_setopt lib)
    {| url := h +:+ "/api/" +:+ p +:+ "." +:+ op; postfields := posting |} ->
  inbox w = Body b :: rest ->
  sent (go lib self op l mp w).2 =
    sent w ++ [{| url := h +:+ "/api/" +:+ p +:+ "." +:+ op;
                  postfields := posting |}]
  /\ (forall e, lib_json_loads lib b = Raise e ->
                (go lib self op l mp w).1 = Raise e)
  /\ (forall v, lib_json_loads lib b = Ok v -> (forall env, v <> VDict env) ->
                (go lib self op l mp w).1 = Raise TypeError)
  /\ (forall env, lib_json_loads lib b = Ok (VDict env) ->
                  dict_get "error_code" env = None ->
                  (go lib self op l mp w).1 = Raise (KeyError "error_code"))
  /\ (forall env, lib_json_loads lib b = Ok (VDict env) ->
                  dict_get "error_code" env = Some VNone ->
                  dict_get "result" env = None ->
                  (go lib self op l mp w).1 = Raise (KeyError "result"))
  /\ (forall env code, lib_json_loads lib b = Ok (VDict env) ->
                       dict_get "error_code" env = Some code -> code <> VNone ->
                       dict_get "error_info" env = None ->
                       (go lib self op l mp w).1 = Raise (KeyError "error_info")).
Proof.
  intros Hp Ht Hh Hpost [Hu Hb] Hin. simpl in Hu, Hb.
  rewrite (go_run lib self op l mp w p tok h Hp Ht Hh), Hu, Hpost, Hb.
  unfold answer. rewrite Hin. simpl. unfold data_back.
  split; [reflexivity|]. split; [|split; [|split; [|split]]].
  - intros e ->. reflexivity.
  - intros v -> Hv. simpl.
    destruct v as [| ? | ? | ? | ? | env]; try reflexivity. now destruct (Hv env).
  - intros env -> Hc. simpl. now rewrite Hc.
  - intros env -> Hc Hr. simpl. now rewrite Hc, Hr.
  - intros env code -> Hc Hne Hi. simpl. rewrite Hc. simpl. rewrite Hi.
    now destruct code.
Qed.

Lemma call_malformed_reply_witness :
  (go scripted_library a_client "query" 1%positive true
      (world_with VNone "not json")).1 = Raise JSONDecodeError.
Proof.
  apply (proj1 (proj2 (call_malformed_reply scripted_library a_client "query"
                         1%positive true (world_with VNone "not json")
                         "user" "api-abc" "https://phab.example"
                         "api.token=api-abc" (world_with VNone "not json")
                         "not json" [] eq_refl eq_refl eq_refl
                         ltac:(vm_compute; reflexivity)
                         ltac:(split; vm_compute; reflexivity) eq_refl))).
  reflexivity.
Defined.

(** X11: when two configured clients make a standard call on the same
    mapping one after the other, and the handle takes the URL of each, the
    mapping ends as if only the second had called: it carries the second
    token, and a second call by the same client changes nothing in the
    store. *)
Theorem standard_call_twice lib a b op op' l w pa ta ha pb tb hb kvs :
  prefix a = Some pa -> token a = Some ta -> host a = Some ha ->
  prefix b = Some pb -> token b = Some tb -> host b = Some hb ->
  lib_setopt lib URL (ha +:+ "/api/" +:+ pa +:+ "." +:+ op) = Ok tt ->
  lib_setopt lib URL (hb +:+ "/api/" +:+ pb +:+ "." +:+ op') = Ok tt ->
  heap w !! l = Some (VDict kvs) ->
  heap (go lib b op' l false (go lib a op l false w).2).2
  = <[l := VDict (dict_set "api.token" (VStr tb) kvs)]> (heap w)
  /\ (ta = tb ->
      heap (go lib b op' l false (go lib a op l false w).2).2
      = heap (go lib a op l false w).2).
Proof.
  intros Hpa Hta Hha Hpb Htb Hhb Hua Hub Hl.
  assert (Hd : deref w l = VDict kvs) by (now apply lookup_total_correct).
  assert (Hheap : forall c o pc tc hc w0 d,
             prefix c = Some pc -> token c = Some tc -> host c = Some hc ->
             lib_setopt lib URL (hc +:+ "/api/" +:+ pc +:+ "." +:+ o) = Ok tt ->
             deref w0 l = VDict d ->
             heap (go lib c o l false w0).2
             = <[l := VDict (dict_set "api.token" (VStr tc) d)]> (heap w0)).
  { intros c o pc tc hc w0 d Hpc Htc Hhc Hu Hd0.
    rewrite (go_run lib c o l false w0 pc tc hc Hpc Htc Hhc), Hu.
    rewrite (standard_post_data_dict _ tc l w0 d Hd0).
    destruct (lib_urlencode lib _) as [body|e]; [|reflexivity].
    now destruct (lib_setopt lib POSTFIELDS body) as [[]|e]. }
  assert (H1 := Hheap a op pa ta ha w kvs Hpa Hta Hha Hua Hd).
  assert (Hd1 : deref (go lib a op l false w).2 l
                = VDict (dict_set "api.token" (VStr ta) kvs)).
  { unfold deref. rewrite H1. apply lookup_total_insert_eq. }
  assert (H2 := Hheap b op' pb tb hb _ _ Hpb Htb Hhb Hub Hd1).
  rewrite dict_set_twice, H1, insert_insert_eq in H2.
  split; [exact H2|].
  intros ->. now rewrite H2, H1.
Qed.

Lemma standard_call_twice_witness :
  heap (go scripted_library a_client "info" 1%positive false
          (go scripted_library a_client "edit" 1%positive false
             (world_with (VDict [("slug", VStr "home")]) "reply-ok")).2).2
  = <[1%positive := VDict [("slug", VStr "home"); ("api.token", VStr "api-abc")]]>
      (heap (world_with (VDict [("slug", VStr "home")]) "reply-ok")).
Proof.
  apply (proj1 (standard_call_twice scripted_library a_client a_client "edit"
                  "info" 1%positive
                  (world_with (VDict [("slug", VStr "home")]) "reply-ok")
                  "user" "api-abc" "https://phab.example"
                  "user" "api-abc" "https://phab.example"
                  [("slug", VStr "home")]
                  eq_refl eq_refl eq_refl eq_refl eq_refl eq_refl
                  ltac:(vm_compute; reflexivity) ltac:(vm_compute; reflexivity)
                  eq_refl)).
Defined.

(** X12: a configured call in manual mode builds its body, which begins
    with [api.token=<token>], exactly when the parameters are [None] or a
    tree the encoder accepts, and then sends it when the handle takes the
    URL and the body; on any other parameters nothing is sent or changed
    and the call raises, with [TypeError] once the URL is taken. *)
Theorem manual_call_accepts lib self op l w p tok h :
  prefix self = Some p -> token self = Some tok -> host self = Some h ->
  (manual_ok (deref w l) = true ->
   exists rest,
     post_data (lib_urlencode lib) tok true l w
     = (Ok ("api.token=" +:+ tok +:+ rest), w)
     /\ (accepted (lib_setopt lib)
           {| url := h +:+ "/api/" +:+ p +:+ "." +:+ op;
              postfields := "api.token=" +:+ tok +:+ rest |} ->
         sent (go lib self op l true w).2 =
         sent w ++ [{| url := h +:+ "/api/" +:+ p +:+ "." +:+ op;
                       postfields := "api.token=" +:+ tok +:+ rest |}]))
  /\ (manual_ok (deref w l) = false ->
      post_data (lib_urlencode lib) tok true l w = (Raise TypeError, w)
      /\ (exists e, go lib self op l true w = (Raise e, w))
      /\ (lib_setopt lib URL (h +:+ "/api/" +:+ p +:+ "." +:+ op) = Ok tt ->
          go lib self op l true w = (Raise TypeError, w))).
Proof.
  intros Hp Ht Hh.
  rewrite !(go_run lib self op l true w p tok h Hp Ht Hh), manual_post_data.
  split; intros H.
  - destruct (manual_fields_ok tok _ H) as [fs ->].
    destruct (concat_cons_begins "&" ("api.token=" +:+ tok) fs) as [rest Hr].
    rewrite append_assoc in Hr.
    exists rest. cbv beta iota delta [rbind]. rewrite Hr.
    split; [reflexivity|]. intros [Hu Hb]. simpl in Hu, Hb.
    rewrite Hu. cbv beta iota. now rewrite Hb.
  - rewrite (manual_fields_raise tok _ H). simpl.
    split; [reflexivity|]. split; [|now intros ->].
    destruct (lib_setopt lib URL _) as [[]|e]; eauto.
Qed.

Lemma manual_call_accepts_witness :
  go scripted_library a_client "query" 1%positive true
     (world_with (VDict [("limit", VInt 5)]) "reply-ok")
  = (Raise TypeError, world_with (VDict [("limit", VInt 5)]) "reply-ok").
Proof.
  assert (H : manual_ok (deref (world_with (VDict [("limit", VInt 5)]) "reply-ok")
                           1%positive) = false) by (vm_compute; reflexivity).
  apply (proj2 (proj2 (proj2 (manual_call_accepts scripted_library a_client
                                "query" 1%positive
                                (world_with (VDict [("limit", VInt 5)]) "reply-ok")
                                "user" "api-abc" "https://phab.example"
                                eq_refl eq_refl eq_refl) H))).
  vm_compute. reflexivity.
Defined.

(** X25: what the handle refuses is not sent. When [setopt] refuses the URL,
    the call raises what [setopt] raises and the world is as it was, the
    caller's mapping included, in both modes. When it refuses the body, the
    call raises the same with nothing sent and no reply taken; in standard
    mode the token has by then been written into the mapping. *)
Theorem call_refused lib self op l mp w p tok h e :
  prefix self = Some p -> token self = Some tok -> host self = Some h ->
  (lib_setopt lib URL (h +:+ "/api/" +:+ p +:+ "." +:+ op) = Raise e ->
   go lib self op l mp w = (Raise e, w))
  /\ (forall posting w1,
        lib_setopt lib URL (h +:+ "/api/" +:+ p +:+ "." +:+ op) = Ok tt ->
        post_data (lib_urlencode lib) tok mp l w = (Ok posting, w1) ->
        lib_setopt lib POSTFIELDS posting = Raise e ->
        go lib self op l mp w = (Raise e, w1)
        /\ sent w1 = sent w /\ inbox w1 = inbox w)
  /\ (forall kvs body,
        lib_setopt lib URL (h +:+ "/api/" +:+ p +:+ "." +:+ op) = Ok tt ->
        mp = false -> heap w !! l = Some (VDict kvs) ->
        lib_urlencode lib (VDict (dict_set "api.token" (VStr tok) kvs)) = Ok body ->
        lib_setopt lib POSTFIELDS body = Raise e ->
        go lib self op l mp w
        = (Raise e, store l (VDict (dict_set "api.token" (VStr tok) kvs)) w)).
Proof.
  intros Hp Ht Hh.
  rewrite !(go_run lib self op l mp w p tok h Hp Ht Hh).
  split; [now intros ->|]. split.
  - intros posting w1 -> Hpost Hb.
    pose proof (post_data_offline (lib_urlencode lib) tok mp l w) as Hoff.
    rewrite Hpost in *. rewrite Hb. split; [reflexivity|exact Hoff].
  - intros kvs body -> -> Hl Hbody Hb.
    rewrite (standard_post_data_dict _ tok l w kvs)
      by (now apply lookup_total_correct).
    now rewrite Hbody, Hb.
Qed.

Lemma call_refused_witness :
  go scripted_library a_client "query" 1%positive true
     (world_with (VStr e_acute) "reply-ok")
  = (Raise UnicodeEncodeError, world_with (VStr e_acute) "reply-ok").
Proof.
  apply (proj1 (proj1 (proj2 (call_refused scripted_library a_client "query"
                  1%positive true (world_with (VStr e_acute) "reply-ok")
                  "user" "api-abc" "https://phab.example" UnicodeEncodeError
                  eq_refl eq_refl eq_refl))
                  ("api.token=api-abc&=" +:+ e_acute)
                  (world_with (VStr e_acute) "reply-ok")
                  ltac:(vm_compute; reflexivity) ltac:(vm_compute; reflexivity)
                  ltac:(vm_compute; reflexivity))).
Defined.

(** * The endpoint classes *)

Lemma alloc_run {A} v (f : loc -> M A) w :
  bind (alloc v) f w = f (fresh (dom (heap w))) (store (fresh (dom (heap w))) v w).
Proof. reflexivity. Qed.

Lemma setitem_stored l k x d w :
  setitem l k x (store l (VDict d) w) = (Ok tt, store l (VDict (dict_set k x d)) w).
Proof. unfold setitem. now rewrite deref_store_eq, store_store. Qed.

Lemma setitem_run {A} l k x d (f : unit -> M A) w :
  bind (setitem l k x) f (store l (VDict d) w)
  = f tt (store l (VDict (dict_set k x d)) w).
Proof. unfold bind. now rewrite setitem_stored. Qed.

(** A manual call on parameters that give their fields, on a handle that
    takes the URL and the body made of them. *)
Lemma go_manual lib self op l w p tok h rq :
  prefix self = Some p -> token self = Some tok -> host self = Some h ->
  url rq = h +:+ "/api/" +:+ p +:+ "." +:+ op ->
  (do fields <- manual_fields tok (deref w l); Ok (String.concat "&" fields))
  = Ok (postfields rq) ->
  accepted (lib_setopt lib) rq ->
  go lib self op l true w = (answer lib w, after_request rq w).
Proof.
  intros Hp Ht Hh Hurl Hf [Hu Hb]. destruct rq as [u b]. simpl in *. subst u.
  rewrite (go_run lib self op l true w p tok h Hp Ht Hh), Hu, manual_post_data, Hf.
  cbv beta iota. rewrite Hb. reflexivity.
Qed.

(** A manual call on parameters the encoder refuses: nothing is sent, and
    once the handle has taken the URL the encoder's error is raised. *)
Lemma go_manual_raise lib self op l w p tok h e :
  prefix self = Some p -> token self = Some tok -> host self = Some h ->
  manual_fields tok (deref w l) = Raise e ->
  sent (go lib self op l true w).2 = sent w
  /\ (lib_setopt lib URL (h +:+ "/api/" +:+ p +:+ "." +:+ op) = Ok tt ->
      go lib self op l true w = (Raise e, w)).
Proof.
  intros Hp Ht Hh Hf.
  rewrite !(go_run lib self op l true w p tok h Hp Ht Hh), manual_post_data, Hf.
  split.
  - now destruct (lib_setopt lib URL _) as [[]|e'].
  - now intros ->.
Qed.

Lemma str_0 : str 0 = "0".
Proof. vm_compute. reflexivity. Qed.

Lemma lift_ok_run {A B} (a : A) (f : A -> M B) w : bind (lift (Ok a)) f w = f a w.
Proof. reflexivity. Qed.

Lemma lift_raise_run {A B} e (f : A -> M B) w :
  bind (lift (Raise e)) f w = (Raise e, w).
Proof. reflexivity. Qed.

(** Unfold a method down to its call of [go] on the mapping it has built. *)
Ltac method_to_go :=
  repeat (progress (rewrite ?lift_ok_run, ?lift_raise_run, ?alloc_run, ?setitem_run));
  cbv beta.

(** A method that ends in a manual call, when the handle takes the request
    named in the statement. *)
Ltac manual_call lib self op p tok h Ht Hh :=
  let Hacc := fresh "Hacc" in
  cbv zeta; intros Hacc; method_to_go;
  match type of Hacc with
  | accepted _ ?rq =>
      rewrite (go_manual lib self op _ _ p tok h rq eq_refl Ht Hh eq_refl);
      [ reflexivity
      | rewrite deref_store_eq;
        first [reflexivity | simpl; rewrite ?str_0; reflexivity]
      | exact Hacc ]
  end.

(** A method that ends in a manual call on a mapping the encoder refuses;
    [tac] shows that it does. *)
Ltac manual_refusal lib self op p tok h Ht Hh tac :=
  method_to_go;
  match goal with
  | |- context [go lib self op ?l true ?w] =>
      let Hs := fresh "Hs" in
      let Hr := fresh "Hr" in
      let Hu := fresh "Hu" in
      destruct (go_manual_raise lib self op l w p tok h TypeError eq_refl Ht Hh)
        as [Hs Hr];
      [ rewrite deref_store_eq; apply manual_fields_raise; tac
      | split; [exact Hs | intros Hu; now rewrite (Hr Hu)] ]
  end.

(** X13: closing a task. [resolve_by_id] and [invalid_by_id] of a client
    made by a factory that has token and host build the body with the fields
    [id], [comments] (the fixed text [marking closed], space included) and
    [status], in that order after the token, and send it as one request to
    [maniphest.update] when the handle takes the URL and that body. A task
    id that the encoder does not accept (a number, [None]) sends nothing,
    and raises [TypeError] once the handle has taken the URL. *)
Theorem maniphest_close_by_id lib f tok h (task_id : string) (bad : value) w :
  Factory.token f = Some tok -> Factory.host f = Some h ->
  encodable bad = false ->
  let self := Factory.create f Maniphest.new in
  let l := fresh (dom (heap w)) in
  (let rq := {| url := h +:+ "/api/maniphest.update";
                postfields := "api.token=" +:+ tok +:+ "&id=" +:+ task_id
                              +:+ "&comments=marking closed&status=resolved" |} in
   accepted (lib_setopt lib) rq ->
   Maniphest.resolve_by_id lib self (VStr task_id) w =
     (answer lib w,
      after_request rq
        (store l (VDict [("id", VStr task_id);
                         ("comments", VStr "marking closed");
                         ("status", VStr "resolved")]) w)))
  /\ (let rq := {| url := h +:+ "/api/maniphest.update";
                   postfields := "api.token=" +:+ tok +:+ "&id=" +:+ task_id
                                 +:+ "&comments=marking closed&status=invalid" |} in
      accepted (lib_setopt lib) rq ->
      Maniphest.invalid_by_id lib self (VStr task_id) w =
        (answer lib w,
         after_request rq
           (store l (VDict [("id", VStr task_id);
                            ("comments", VStr "marking closed");
                            ("status", VStr "invalid")]) w)))
  /\ (sent (Maniphest.resolve_by_id lib self bad w).2 = sent w
      /\ (lib_setopt lib URL (h +:+ "/api/maniphest.update") = Ok tt ->
          (Maniphest.resolve_by_id lib self bad w).1 = Raise TypeError))
  /\ (sent (Maniphest.invalid_by_id lib self bad w).2 = sent w
      /\ (lib_setopt lib URL (h +:+ "/api/maniphest.update") = Ok tt ->
          (Maniphest.invalid_by_id lib self bad w).1 = Raise TypeError)).
Proof.
  intros Ht Hh Hbad self l. subst self l.
  unfold Maniphest.resolve_by_id, Maniphest.invalid_by_id, Maniphest._close_by_id,
    Maniphest._comment_params, Maniphest._update.
  split; [|split; [|split]].
  - manual_call lib (Factory.create f Maniphest.new) "update" "maniphest" tok h Ht Hh.
  - manual_call lib (Factory.create f Maniphest.new) "update" "maniphest" tok h Ht Hh.
  - manual_refusal lib (Factory.create f Maniphest.new) "update" "maniphest" tok h
      Ht Hh ltac:(simpl; now rewrite Hbad).
  - manual_refusal lib (Factory.create f Maniphest.new) "update" "maniphest" tok h
      Ht Hh ltac:(simpl; now rewrite Hbad).
Qed.

Lemma maniphest_close_by_id_witness :
  (Maniphest.resolve_by_id scripted_library
     (Factory.create {| Factory.token := Some "api-abc";
                        Factory.host := Some "https://phab.example" |}
        Maniphest.new)
     (VInt 42) (world_with VNone "reply-ok")).1 = Raise TypeError
  /\ sent (Maniphest.resolve_by_id scripted_library
             (Factory.create {| Factory.token := Some "api-abc";
                                Factory.host := Some "https://phab.example" |}
                Maniphest.new)
             (VStr "42") (world_with VNone "reply-ok")).2
     = [{| url := "https://phab.example/api/maniphest.update";
           postfields := "api.token=api-abc&id=42&comments=marking closed&status=resolved" |}].
Proof.
  pose proof (maniphest_close_by_id scripted_library
                {| Factory.token := Some "api-abc";
                   Factory.host := Some "https://phab.example" |}
                "api-abc" "https://phab.example" "42" (VInt 42)
                (world_with VNone "reply-ok") eq_refl eq_refl eq_refl) as H.
  split.
  - apply (proj2 (proj1 (proj2 (proj2 H)))). vm_compute. reflexivity.
  - rewrite (proj1 H); [reflexivity|]. split; vm_compute; reflexivity.
Defined.

(** X14: the open-task queries. [open] builds [status=status-open] for
    [maniphest.query]; [open_and_subscribed] and [open_by_project_phid] add
    the one-element sequence [ccPHIDs[0]] or [projectPHIDs[0]] after it; each
    sends its body as one request when the handle takes the URL and the
    body. The identifier sits inside a sequence, so it has to be a string:
    anything else, a list of identifiers included, sends nothing, and raises
    [TypeError] once the handle has taken the URL. *)
Theorem maniphest_open_queries lib f tok h (phid : string) (bad : value) w :
  Factory.token f = Some tok -> Factory.host f = Some h ->
  is_str bad = false ->
  let self := Factory.create f Maniphest.new in
  let l := fresh (dom (heap w)) in
  (let rq := {| url := h +:+ "/api/maniphest.query";
                postfields := "api.token=" +:+ tok +:+ "&status=status-open" |} in
   accepted (lib_setopt lib) rq ->
   Maniphest.open lib self w =
     (answer lib w,
      after_request rq (store l (VDict [("status", VStr "status-open")]) w)))
  /\ (let rq := {| url := h +:+ "/api/maniphest.query";
                   postfields := "api.token=" +:+ tok
                                 +:+ "&status=status-open&ccPHIDs[0]=" +:+ phid |} in
      accepted (lib_setopt lib) rq ->
      Maniphest.open_and_subscribed lib self (VStr phid) w =
        (answer lib w,
         after_request rq
           (store l (VDict [("status", VStr "status-open");
                            ("ccPHIDs", VList [VStr phid])]) w)))
  /\ (let rq := {| url := h +:+ "/api/maniphest.query";
                   postfields := "api.token=" +:+ tok
                                 +:+ "&status=status-open&projectPHIDs[0]="
                                 +:+ phid |} in
      accepted (lib_setopt lib) rq ->
      Maniphest.open_by_project_phid lib self (VStr phid) w =
        (answer lib w,
         after_request rq
           (store l (VDict [("status", VStr "status-open");
                            ("projectPHIDs", VList [VStr phid])]) w)))
  /\ (sent (Maniphest.open_and_subscribed lib self bad w).2 = sent w
      /\ (lib_setopt lib URL (h +:+ "/api/maniphest.query") = Ok tt ->
          (Maniphest.open_and_subscribed lib self bad w).1 = Raise TypeError))
  /\ (sent (Maniphest.open_by_project_phid lib self bad w).2 = sent w
      /\ (lib_setopt lib URL (h +:+ "/api/maniphest.query") = Ok tt ->
          (Maniphest.open_by_project_phid lib self bad w).1 = Raise TypeError)).
Proof.
  intros Ht Hh Hbad self l. subst self l.
  unfold Maniphest.open, Maniphest.open_and_subscribed,
    Maniphest.open_by_project_phid, Maniphest._open_params, Maniphest._query.
  split; [|split; [|split; [|split]]].
  - manual_call lib (Factory.create f Maniphest.new) "query" "maniphest" tok h Ht Hh.
  - manual_call lib (Factory.create f Maniphest.new) "query" "maniphest" tok h Ht Hh.
  - manual_call lib (Factory.create f Maniphest.new) "query" "maniphest" tok h Ht Hh.
  - manual_refusal lib (Factory.create f Maniphest.new) "query" "maniphest" tok h
      Ht Hh ltac:(simpl; now rewrite Hbad).
  - manual_refusal lib (Factory.create f Maniphest.new) "query" "maniphest" tok h
      Ht Hh ltac:(simpl; now rewrite Hbad).
Qed.

Lemma maniphest_open_queries_witness :
  (Maniphest.open_and_subscribed scripted_library
     (Factory.create {| Factory.token := Some "api-abc";
                        Factory.host := Some "https://phab.example" |}
        Maniphest.new)
     (VList [VStr "PHID-USER-1"; VStr "PHID-USER-2"])
     (world_with VNone "reply-ok")).1 = Raise TypeError
  /\ sent (Maniphest.open_and_subscribed scripted_library
             (Factory.create {| Factory.token := Some "api-abc";
                                Factory.host := Some "https://phab.example" |}
                Maniphest.new)
             (VStr "PHID-USER-1") (world_with VNone "reply-ok")).2
     = [{| url := "https://phab.example/api/maniphest.query";
           postfields := "api.token=api-abc&status=status-open&ccPHIDs[0]=PHID-USER-1" |}].
Proof.
  pose proof (maniphest_open_queries scripted_library
                {| Factory.token := Some "api-abc";
                   Factory.host := Some "https://phab.example" |}
                "api-abc" "https://phab.example" "PHID-USER-1"
                (VList [VStr "PHID-USER-1"; VStr "PHID-USER-2"])
                (world_with VNone "reply-ok") eq_refl eq_refl eq_refl) as H.
  split.
  - apply (proj2 (proj1 (proj2 (proj2 (proj2 H))))). vm_compute. reflexivity.
  - rewrite (proj1 (proj2 H)); [reflexivity|]. split; vm_compute; reflexivity.
Defined.

(** X15: the methods that pass their arguments on as one flat mapping put
    them under fixed field names, in the order of the literal, unescaped:
    [comment_by_id] ([id], [comments]), [updatethread] ([id], [message]),
    [querytransaction_by_phid_last] ([roomPHID], [limit]), [info] ([slug])
    and [download] ([phid]), each for its own endpoint, and send that body
    as one request when the handle takes the URL and the body. A [limit]
    the encoder does not accept, such as a number, sends nothing, and raises
    [TypeError] once the handle has taken the URL. *)
Theorem flat_methods lib f tok h (a b : string) (bad : value) w :
  Factory.token f = Some tok -> Factory.host f = Some h ->
  encodable bad = false ->
  let l := fresh (dom (heap w)) in
  (let rq := {| url := h +:+ "/api/maniphest.update";
                postfields := "api.token=" +:+ tok +:+ "&id=" +:+ a
                              +:+ "&comments=" +:+ b |} in
   accepted (lib_setopt lib) rq ->
   Maniphest.comment_by_id lib (Factory.create f Maniphest.new) (VStr a) (VStr b) w =
     (answer lib w,
      after_request rq (store l (VDict [("id", VStr a); ("comments", VStr b)]) w)))
  /\ (let rq := {| url := h +:+ "/api/conpherence.updatethread";
                   postfields := "api.token=" +:+ tok +:+ "&id=" +:+ a
                                 +:+ "&message=" +:+ b |} in
      accepted (lib_setopt lib) rq ->
      Conpherence.updatethread lib (Factory.create f Conpherence.new)
        (VStr a) (VStr b) w =
        (answer lib w,
         after_request rq (store l (VDict [("id", VStr a); ("message", VStr b)]) w)))
  /\ (let rq := {| url := h +:+ "/api/conpherence.querytransaction";
                   postfields := "api.token=" +:+ tok +:+ "&roomPHID=" +:+ a
                                 +:+ "&limit=" +:+ b |} in
      accepted (lib_setopt lib) rq ->
      Conpherence.querytransaction_by_phid_last lib
        (Factory.create f Conpherence.new) (VStr a) (VStr b) w =
        (answer lib w,
         after_request rq
           (store l (VDict [("roomPHID", VStr a); ("limit", VStr b)]) w)))
  /\ (let rq := {| url := h +:+ "/api/phriction.info";
                   postfields := "api.token=" +:+ tok +:+ "&slug=" +:+ a |} in
      accepted (lib_setopt lib) rq ->
      Phriction.info lib (Factory.create f Phriction.new) (VStr a) w =
        (answer lib w, after_request rq (store l (VDict [("slug", VStr a)]) w)))
  /\ (let rq := {| url := h +:+ "/api/file.download";
                   postfields := "api.token=" +:+ tok +:+ "&phid=" +:+ a |} in
      accepted (lib_setopt lib) rq ->
      File.download lib (Factory.create f File.new) (VStr a) w =
        (answer lib w, after_request rq (store l (VDict [("phid", VStr a)]) w)))
  /\ (sent (Conpherence.querytransaction_by_phid_last lib
              (Factory.create f Conpherence.new) (VStr a) bad w).2 = sent w
      /\ (lib_setopt lib URL (h +:+ "/api/conpherence.querytransaction") = Ok tt ->
          (Conpherence.querytransaction_by_phid_last lib
             (Factory.create f Conpherence.new) (VStr a) bad w).1
          = Raise TypeError)).
Proof.
  intros Ht Hh Hbad l. subst l.
  unfold Maniphest.comment_by_id, Maniphest._comment_params, Maniphest._update,
    Conpherence.updatethread, Conpherence.querytransaction_by_phid_last,
    Phriction.info, File.download.
  split; [|split; [|split; [|split; [|split]]]].
  - manual_call lib (Factory.create f Maniphest.new) "update" "maniphest" tok h Ht Hh.
  - manual_call lib (Factory.create f Conpherence.new) "updatethread" "conpherence"
      tok h Ht Hh.
  - manual_call lib (Factory.create f Conpherence.new) "querytransaction"
      "conpherence" tok h Ht Hh.
  - manual_call lib (Factory.create f Phriction.new) "info" "phriction" tok h Ht Hh.
  - manual_call lib (Factory.create f File.new) "download" "file" tok h Ht Hh.
  - manual_refusal lib (Factory.create f Conpherence.new) "querytransaction"
      "conpherence" tok h Ht Hh ltac:(simpl; now rewrite Hbad).
Qed.

Lemma flat_methods_witness :
  (Conpherence.querytransaction_by_phid_last scripted_library
     (Factory.create {| Factory.token := Some "api-abc";
                        Factory.host := Some "https://phab.example" |}
        Conpherence.new)
     (VStr "PHID-CONP-1") (VInt 5) (world_with VNone "reply-ok")).1
  = Raise TypeError
  /\ sent (Conpherence.querytransaction_by_phid_last scripted_library
             (Factory.create {| Factory.token := Some "api-abc";
                                Factory.host := Some "https://phab.example" |}
                Conpherence.new)
             (VStr "PHID-CONP-1") (VStr "5") (world_with VNone "reply-ok")).2
     = [{| url := "https://phab.example/api/conpherence.querytransaction";
           postfields := "api.token=api-abc&roomPHID=PHID-CONP-1&limit=5" |}].
Proof.
  pose proof (flat_methods scripted_library
                {| Factory.token := Some "api-abc";
                   Factory.host := Some "https://phab.example" |}
                "api-abc" "https://phab.example" "PHID-CONP-1" "5" (VInt 5)
                (world_with VNone "reply-ok") eq_refl eq_refl eq_refl) as H.
  split.
  - apply (proj2 (proj2 (proj2 (proj2 (proj2 (proj2 H)))))). vm_compute. reflexivity.
  - rewrite (proj1 (proj2 (proj2 H))); [reflexivity|]. split; vm_compute; reflexivity.
Defined.

(** X16: [filecontent_by_path_branch] puts the callsign with an ["r"] in
    front as [repository], between [path] and [branch], and sends that body
    when the handle takes the URL and the body; a callsign that is not a
    string raises [TypeError] before anything is built, and the world is as
    it was. *)
Theorem diffusion_filecontent lib f tok h (path callsign branch : string)
    (bad pathv branchv : value) w :
  Factory.token f = Some tok -> Factory.host f = Some h ->
  is_str bad = false ->
  let self := Factory.create f Diffusion.new in
  (let rq := {| url := h +:+ "/api/diffusion.filecontentquery";
                postfields := "api.token=" +:+ tok +:+ "&path=" +:+ path
                              +:+ "&repository=r" +:+ callsign
                              +:+ "&branch=" +:+ branch |} in
   accepted (lib_setopt lib) rq ->
   Diffusion.filecontent_by_path_branch lib self (VStr path) (VStr callsign)
     (VStr branch) w =
     (answer lib w,
      after_request rq
        (store (fresh (dom (heap w)))
           (VDict [("path", VStr path);
                   ("repository", VStr ("r" +:+ callsign));
                   ("branch", VStr branch)]) w)))
  /\ Diffusion.filecontent_by_path_branch lib self pathv bad branchv w
     = (Raise TypeError, w).
Proof.
  intros Ht Hh Hbad self. subst self.
  unfold Diffusion.filecontent_by_path_branch. split.
  - simpl str_add.
    manual_call lib (Factory.create f Diffusion.new) "filecontentquery" "diffusion"
      tok h Ht Hh.
  - destruct bad; try discriminate; reflexivity.
Qed.

Lemma diffusion_filecontent_witness :
  Diffusion.filecontent_by_path_branch scripted_library
    (Factory.create {| Factory.token := Some "api-abc";
                       Factory.host := Some "https://phab.example" |}
       Diffusion.new)
    (VStr "README") VNone (VStr "master") (world_with VNone "reply-ok")
  = (Raise TypeError, world_with VNone "reply-ok")
  /\ sent (Diffusion.filecontent_by_path_branch scripted_library
             (Factory.create {| Factory.token := Some "api-abc";
                                Factory.host := Some "https://phab.example" |}
                Diffusion.new)
             (VStr "README") (VStr "X") (VStr "master")
             (world_with VNone "reply-ok")).2
     = [{| url := "https://phab.example/api/diffusion.filecontentquery";
           postfields := "api.token=api-abc&path=README&repository=rX&branch=master" |}].
Proof.
  pose proof (diffusion_filecontent scripted_library
                {| Factory.token := Some "api-abc";
                   Factory.host := Some "https://phab.example" |}
                "api-abc" "https://phab.example" "README" "X" "master"
                VNone (VStr "README") (VStr "master")
                (world_with VNone "reply-ok") eq_refl eq_refl eq_refl) as H.
  split.
  - exact (proj2 H).
  - rewrite (proj1 H); [reflexivity|]. split; vm_compute; reflexivity.
Defined.

(** X17: [edit_text] sends the panel text through [quote] and nothing else:
    the body has [transactions[0][type]=custom.text], then
    [transactions[0][value]] with the quoted text, then [objectIdentifier]
    with the identifier as given, and goes out as one request when the
    handle takes the URL and the body. When [quote] raises, the call raises
    the same and nothing is sent. *)
Theorem dashboard_edit_text lib f tok h (identifier quoted : string)
    (text : value) (e : exn) w :
  Factory.token f = Some tok -> Factory.host f = Some h ->
  let self := Factory.create f Dashboard.new in
  (lib_quote lib text = Ok quoted ->
   let rq := {| url := h +:+ "/api/dashboard.panel.edit";
                postfields := "api.token=" +:+ tok
                              +:+ "&transactions[0][type]=custom.text"
                              +:+ "&transactions[0][value]=" +:+ quoted
                              +:+ "&objectIdentifier=" +:+ identifier |} in
   accepted (lib_setopt lib) rq ->
   Dashboard.edit_text lib self (VStr identifier) text w =
     (answer lib w,
      after_request rq
        (store (fresh (dom (heap w)))
           (VDict [("transactions[0][type]", VStr "custom.text");
                   ("transactions[0][value]", VStr quoted);
                   ("objectIdentifier", VStr identifier)]) w)))
  /\ (lib_quote lib text = Raise e ->
      (Dashboard.edit_text lib self (VStr identifier) text w).1 = Raise e
      /\ sent (Dashboard.edit_text lib self (VStr identifier) text w).2 = sent w).
Proof.
  intros Ht Hh self. subst self. unfold Dashboard.edit_text.
  split; intros Hq.
  - method_to_go. rewrite Hq.
    manual_call lib (Factory.create f Dashboard.new) "panel.edit" "dashboard"
      tok h Ht Hh.
  - method_to_go. rewrite Hq. split; reflexivity.
Qed.

Lemma dashboard_edit_text_witness :
  sent (Dashboard.edit_text scripted_library
          (Factory.create {| Factory.token := Some "api-abc";
                             Factory.host := Some "https://phab.example" |}
             Dashboard.new)
          (VStr "12") (VStr "hi") (world_with VNone "reply-ok")).2
  = [{| url := "https://phab.example/api/dashboard.panel.edit";
        postfields := "api.token=api-abc&transactions[0][type]=custom.text&transactions[0][value]=hi&objectIdentifier=12" |}].
Proof.
  pose proof (proj1 (dashboard_edit_text scripted_library
           {| Factory.token := Some "api-abc";
              Factory.host := Some "https://phab.example" |}
           "api-abc" "https://phab.example" "12" "hi" (VStr "hi") TypeError
           (world_with VNone "reply-ok") eq_refl eq_refl) eq_refl) as H.
  rewrite H; [reflexivity|]. split; vm_compute; reflexivity.
Defined.

Lemma dict_get_nodup kvs p x :
  NoDup kvs.*1 -> (p, x) ∈ kvs -> dict_get p kvs = Some x.
Proof.
  induction kvs as [|[k v] kvs IH]; intros Hnd Hin; [now apply elem_of_nil in Hin|].
  simpl in Hnd. apply NoDup_cons in Hnd as [Hk Hnd].
  apply elem_of_cons in Hin as [[= -> ->]|Hin]; simpl.
  - now rewrite String.eqb_refl.
  - destruct (String.eqb p k) eqn:E; [|now apply IH].
    apply String.eqb_eq in E. subst k. destruct Hk.
    apply list_elem_of_fmap. now exists (p, x).
Qed.

Lemma dict_get_not_in k kvs : k ∉ kvs.*1 -> dict_get k kvs = None.
Proof.
  induction kvs as [|[k0 v] kvs IH]; simpl; [reflexivity|].
  intros H. apply not_elem_of_cons in H as [Hne H].
  apply String.eqb_neq in Hne. now rewrite Hne, IH.
Qed.

Lemma dict_get_filter_ne k k0 kvs :
  k <> k0 -> dict_get k (filter (fun kv => kv.1 <> k0) kvs) = dict_get k kvs.
Proof.
  intros Hne. induction kvs as [|[k1 v] kvs IH]; [reflexivity|].
  destruct (decide (k1 = k0)) as [->|Hk].
  - rewrite filter_cons_False by (simpl; tauto). simpl.
    apply String.eqb_neq in Hne. now rewrite Hne.
  - rewrite filter_cons_True by (simpl; exact Hk). simpl. now rewrite IH.
Qed.

(** The loop of [_search_by_query] on a mapping that starts with
    [queryKey]. *)
Lemma copy_keys_items vals params items :
  forall acc qa w,
    (forall p x, (p, x) ∈ items -> dict_get p params = Some x) ->
    NoDup items.*1 ->
    (forall p, p ∈ items.*1 -> p ∉ acc.*1) ->
    "queryKey" ∉ acc.*1 ->
    CalendarEvent.copy_keys vals params items.*1
      (store vals (VDict (("queryKey", qa) :: acc)) w)
    = (Ok tt,
       store vals
         (VDict (("queryKey", default qa (dict_get "queryKey" items))
                 :: acc ++ filter (fun kv => kv.1 <> "queryKey") items)) w).
Proof.
  induction items as [|[p x] items IH]; intros acc qa w Hget Hnd Hdis Hq.
  - simpl. unfold ret. now rewrite filter_nil, app_nil_r.
  - rewrite fmap_cons in Hnd, Hdis. rewrite fmap_cons.
    change ((p, x).1) with p in *.
    apply NoDup_cons in Hnd as [Hp Hnd].
    cbn [CalendarEvent.copy_keys]. unfold getitem.
    rewrite (Hget p x) by apply list_elem_of_here.
    rewrite lift_ok_run, setitem_run.
    assert (Hget' : forall p' x', (p', x') ∈ items -> dict_get p' params = Some x')
      by (intros; apply Hget; now apply list_elem_of_further).
    cbn [dict_set dict_get].
    destruct (String.eqb p "queryKey") eqn:E.
    + apply String.eqb_eq in E. subst p.
      rewrite (IH acc x w Hget' Hnd); [| |exact Hq].
      * rewrite String.eqb_refl, (dict_get_not_in _ _ Hp).
        rewrite filter_cons_False by (simpl; tauto). reflexivity.
      * intros p' Hp'. apply Hdis. now apply list_elem_of_further.
    + assert (Hpa : p ∉ acc.*1) by (apply Hdis; apply list_elem_of_here).
      rewrite (dict_set_new p x acc Hpa).
      assert (Hne : p <> "queryKey") by (now apply String.eqb_neq).
      rewrite (IH (acc ++ [(p, x)]) qa w Hget' Hnd).
      * rewrite String.eqb_sym, E.
        rewrite filter_cons_True by (simpl; exact Hne).
        now rewrite <- app_assoc.
      * intros p' Hp'. rewrite fmap_app.
        intros Hin. apply elem_of_app in Hin as [Hin|Hin].
        -- revert Hin. apply Hdis. now apply list_elem_of_further.
        -- apply list_elem_of_singleton in Hin. simpl in Hin. subst p'.
           contradiction.
      * rewrite fmap_app. intros Hin.
        apply elem_of_app in Hin as [Hin|Hin]; [contradiction|].
        apply list_elem_of_singleton in Hin. simpl in Hin. congruence.
Qed.

(** X18: a calendar search is the manual call [search] on a new mapping that
    starts with [queryKey]: the query, unless the caller's parameters have a
    ["queryKey"] of their own, which then takes its place; the caller's other
    entries follow in their order. With no parameters, or an empty mapping,
    the mapping has [queryKey] alone. [upcoming_by_subscriber] so builds
    [queryKey=upcoming] and [constraints[subscribers][0]], and sends them
    when the handle takes the URL and the body. *)
Theorem calendar_search lib f tok h self (query : value)
    (params : list (string * value)) (phid : string) w :
  Factory.token f = Some tok -> Factory.host f = Some h ->
  NoDup params.*1 ->
  let l := fresh (dom (heap w)) in
  CalendarEvent._search_by_query lib self query (Some params) w
    = go lib self "search" l true (store l (VDict (search_vals query params)) w)
  /\ CalendarEvent._search_by_query lib self query None w
    = go lib self "search" l true (store l (VDict [("queryKey", query)]) w)
  /\ search_vals query [] = [("queryKey", query)]
  /\ (forall k, k <> "queryKey" ->
                dict_get k (search_vals query params) = dict_get k params)
  /\ dict_get "queryKey" (search_vals query params)
     = Some (default query (dict_get "queryKey" params))
  /\ (let rq := {| url := h +:+ "/api/calendar.event.search";
                   postfields := "api.token=" +:+ tok
                                 +:+ "&queryKey=upcoming&constraints[subscribers][0]="
                                 +:+ phid |} in
      accepted (lib_setopt lib) rq ->
      CalendarEvent.upcoming_by_subscriber lib
        (Factory.create f CalendarEvent.new) (VStr phid) w =
      (answer lib w,
       after_request rq
         (store l (VDict [("queryKey", VStr "upcoming");
                          ("constraints",
                           VDict [("subscribers", VList [VStr phid])])]) w))).
Proof.
  intros Ht Hh Hnd l. subst l.
  assert (Hsome : forall slf q kvs, NoDup kvs.*1 ->
            CalendarEvent._search_by_query lib slf q (Some kvs) w
            = go lib slf "search" (fresh (dom (heap w))) true
                (store (fresh (dom (heap w))) (VDict (search_vals q kvs)) w)).
  { intros slf q kvs Hk. unfold CalendarEvent._search_by_query.
    rewrite alloc_run. destruct kvs as [|kv kvs]; [reflexivity|].
    unfold bind at 1.
    rewrite (copy_keys_items _ (kv :: kvs) (kv :: kvs) [] q w).
    - reflexivity.
    - intros p x Hin. now apply dict_get_nodup.
    - exact Hk.
    - intros p _. apply not_elem_of_nil.
    - apply not_elem_of_nil. }
  split; [now apply Hsome|]. split; [reflexivity|]. split; [reflexivity|].
  split; [|split].
  - intros k Hk. unfold search_vals. simpl.
    apply String.eqb_neq in Hk. rewrite Hk.
    apply dict_get_filter_ne. now apply String.eqb_neq.
  - reflexivity.
  - cbv zeta. intros Hacc. unfold CalendarEvent.upcoming_by_subscriber.
    rewrite Hsome by (simpl; apply NoDup_singleton).
    rewrite (go_manual lib (Factory.create f CalendarEvent.new) "search" _ _
               "calendar.event" tok h
               {| url := h +:+ "/api/calendar.event.search";
                  postfields := "api.token=" +:+ tok
                    +:+ "&queryKey=upcoming&constraints[subscribers][0]=" +:+ phid |}
               eq_refl Ht Hh eq_refl).
    + reflexivity.
    + rewrite deref_store_eq. simpl. rewrite str_0. reflexivity.
    + exact Hacc.
Qed.

Lemma calendar_search_witness :
  CalendarEvent._search_by_query scripted_library a_client (VStr "upcoming")
    (Some [("limit", VStr "5"); ("queryKey", VStr "all")])
    (world_with VNone "reply-ok")
  = go scripted_library a_client "search" 2%positive true
      (store 2%positive (VDict [("queryKey", VStr "all"); ("limit", VStr "5")])
         (world_with VNone "reply-ok")).
Proof.
  apply (calendar_search scripted_library
           {| Factory.token := Some "api-abc";
              Factory.host := Some "https://phab.example" |}
           "api-abc" "https://phab.example" a_client (VStr "upcoming")
           [("limit", VStr "5"); ("queryKey", VStr "all")] "P"
           (world_with VNone "reply-ok") eq_refl eq_refl).
  apply NoDup_cons. split; [|apply NoDup_singleton].
  intros H. apply list_elem_of_singleton in H. discriminate.
Defined.

(** A standard call on a mapping, on a handle that takes the URL and what
    [urlencode] makes of the mapping with the token. *)
Lemma go_standard_dict lib self op l w p tok h kvs body :
  prefix self = Some p -> token self = Some tok -> host self = Some h ->
  deref w l = VDict kvs ->
  lib_urlencode lib (VDict (dict_set "api.token" (VStr tok) kvs)) = Ok body ->
  accepted (lib_setopt lib)
    {| url := h +:+ "/api/" +:+ p +:+ "." +:+ op; postfields := body |} ->
  go lib self op l false w =
    (answer lib w,
     after_request {| url := h +:+ "/api/" +:+ p +:+ "." +:+ op;
                      postfields := body |}
       (store l (VDict (dict_set "api.token" (VStr tok) kvs)) w)).
Proof.
  intros Hp Ht Hh Hd Hbody [Hu Hb]. simpl in Hu, Hb.
  rewrite (go_run lib self op l false w p tok h Hp Ht Hh), Hu.
  rewrite (standard_post_data_dict _ tok l w kvs Hd), Hbody.
  cbv beta iota. rewrite Hb. reflexivity.
Qed.

(** X19: [Phriction.edit] is the one standard-mode method: whatever the
    three arguments are, the mapping handed to [urlencode] has [slug],
    [title], [content] and then ["api.token"], and the body sent to
    [phriction.edit], when the handle takes the URL and that body, is what
    [urlencode] makes of it. *)
Theorem phriction_edit lib f tok h (slug title content : value) body w :
  Factory.token f = Some tok -> Factory.host f = Some h ->
  lib_urlencode lib (VDict [("slug", slug); ("title", title);
                            ("content", content); ("api.token", VStr tok)])
  = Ok body ->
  accepted (lib_setopt lib)
    {| url := h +:+ "/api/phriction.edit"; postfields := body |} ->
  Phriction.edit lib (Factory.create f Phriction.new) slug title content w =
    (answer lib w,
     after_request
       {| url := h +:+ "/api/phriction.edit"; postfields := body |}
       (store (fresh (dom (heap w)))
          (VDict [("slug", slug); ("title", title); ("content", content);
                  ("api.token", VStr tok)]) w)).
Proof.
  intros Ht Hh Hu Hacc. unfold Phriction.edit. method_to_go.
  rewrite (go_standard_dict lib (Factory.create f Phriction.new) "edit" _ _
             "phriction" tok h
             [("slug", slug); ("title", title); ("content", content)] body
             eq_refl Ht Hh (deref_store_eq _ _ _) Hu Hacc).
  rewrite store_store. reflexivity.
Qed.

Lemma phriction_edit_witness :
  sent (Phriction.edit scripted_library
          (Factory.create {| Factory.token := Some "api-abc";
                             Factory.host := Some "https://phab.example" |}
             Phriction.new)
          (VStr "home") (VStr "Home") (VInt 7) (world_with VNone "reply-ok")).2
  = [{| url := "https://phab.example/api/phriction.edit"; postfields := "form" |}].
Proof.
  rewrite (phriction_edit scripted_library
             {| Factory.token := Some "api-abc";
                Factory.host := Some "https://phab.example" |}
             "api-abc" "https://phab.example" (VStr "home") (VStr "Home") (VInt 7)
             "form" (world_with VNone "reply-ok") eq_refl eq_refl eq_refl
             ltac:(split; vm_compute; reflexivity)).
  reflexivity.
Defined.

(** X20: the methods without parameters, [whoami], [User.query] and
    [Conpherence.querythread], build the token alone: the body is exactly
    [api.token=<token>], sent as one request when the handle takes the URL
    and that body. *)
Theorem methods_without_parameters lib f tok h w :
  Factory.token f = Some tok -> Factory.host f = Some h ->
  let l := fresh (dom (heap w)) in
  (let rq := {| url := h +:+ "/api/user.whoami";
                postfields := "api.token=" +:+ tok |} in
   accepted (lib_setopt lib) rq ->
   User.whoami lib (Factory.create f User.new) w =
     (answer lib w, after_request rq (store l VNone w)))
  /\ (let rq := {| url := h +:+ "/api/user.query";
                   postfields := "api.token=" +:+ tok |} in
      accepted (lib_setopt lib) rq ->
      User.query lib (Factory.create f User.new) w =
        (answer lib w, after_request rq (store l VNone w)))
  /\ (let rq := {| url := h +:+ "/api/conpherence.querythread";
                   postfields := "api.token=" +:+ tok |} in
      accepted (lib_setopt lib) rq ->
      Conpherence.querythread lib (Factory.create f Conpherence.new) w =
        (answer lib w, after_request rq (store l VNone w))).
Proof.
  intros Ht Hh l. subst l.
  unfold User.whoami, User.query, User._query, Conpherence.querythread,
    Conpherence._querythread.
  split; [|split].
  - manual_call lib (Factory.create f User.new) "whoami" "user" tok h Ht Hh.
  - manual_call lib (Factory.create f User.new) "query" "user" tok h Ht Hh.
  - manual_call lib (Factory.create f Conpherence.new) "querythread" "conpherence"
      tok h Ht Hh.
Qed.

Lemma methods_without_parameters_witness :
  sent (User.whoami scripted_library
          (Factory.create {| Factory.token := Some "api-abc";
                             Factory.host := Some "https://phab.example" |}
             User.new) (world_with VNone "reply-ok")).2
  = [{| url := "https://phab.example/api/user.whoami";
        postfields := "api.token=api-abc" |}].
Proof.
  rewrite (proj1 (methods_without_parameters scripted_library
                    {| Factory.token := Some "api-abc";
                       Factory.host := Some "https://phab.example" |}
                    "api-abc" "https://phab.example"
                    (world_with VNone "reply-ok") eq_refl eq_refl)
             ltac:(split; vm_compute; reflexivity)).
  reflexivity.
Defined.

(** X21: identifiers given as a sequence. [by_phids] with a sequence of
    strings builds one [phids[i]] per element, in order; with a single string
    it builds the scalar field [phids]; [by_name], [Project.open] and
    [querythread_by_id] build [names[0]], [status] and [ids[0]]. Each sends
    its body as one request when the handle takes the URL and the body. *)
Theorem sequence_methods lib f tok h (ss : list string) (s : string) w :
  Factory.token f = Some tok -> Factory.host f = Some h ->
  let l := fresh (dom (heap w)) in
  (let rq := {| url := h +:+ "/api/user.query";
                postfields :=
                  String.concat "&"
                    (("api.token=" +:+ tok)
                     :: imap (fun i x => "phids[" +:+ str i +:+ "]=" +:+ x) ss) |} in
   accepted (lib_setopt lib) rq ->
   User.by_phids lib (Factory.create f User.new) (VList (VStr <$> ss)) w =
     (answer lib w,
      after_request rq (store l (VDict [("phids", VList (VStr <$> ss))]) w)))
  /\ (let rq := {| url := h +:+ "/api/user.query";
                   postfields := "api.token=" +:+ tok +:+ "&phids=" +:+ s |} in
      accepted (lib_setopt lib) rq ->
      User.by_phids lib (Factory.create f User.new) (VStr s) w =
        (answer lib w, after_request rq (store l (VDict [("phids", VStr s)]) w)))
  /\ (let rq := {| url := h +:+ "/api/project.query";
                   postfields := "api.token=" +:+ tok +:+ "&names[0]=" +:+ s |} in
      accepted (lib_setopt lib) rq ->
      Project.by_name lib (Factory.create f Project.new) (VStr s) w =
        (answer lib w,
         after_request rq (store l (VDict [("names", VList [VStr s])]) w)))
  /\ (let rq := {| url := h +:+ "/api/project.query";
                   postfields := "api.token=" +:+ tok +:+ "&status=status-open" |} in
      accepted (lib_setopt lib) rq ->
      Project.open lib (Factory.create f Project.new) w =
        (answer lib w,
         after_request rq (store l (VDict [("status", VStr "status-open")]) w)))
  /\ (let rq := {| url := h +:+ "/api/conpherence.querythread";
                   postfields := "api.token=" +:+ tok +:+ "&ids[0]=" +:+ s |} in
      accepted (lib_setopt lib) rq ->
      Conpherence.querythread_by_id lib (Factory.create f Conpherence.new)
        (VStr s) w =
        (answer lib w,
         after_request rq (store l (VDict [("ids", VList [VStr s])]) w))).
Proof.
  intros Ht Hh l. subst l.
  unfold User.by_phids, User._query, Project.by_name, Project.open,
    Project._query, Conpherence.querythread_by_id, Conpherence._querythread.
  split; [|split; [|split; [|split]]].
  - cbv zeta. intros Hacc. method_to_go.
    rewrite (go_manual lib (Factory.create f User.new) "query" _ _ "user" tok h
               {| url := h +:+ "/api/user.query";
                  postfields :=
                    String.concat "&"
                      (("api.token=" +:+ tok)
                       :: imap (fun i x => "phids[" +:+ str i +:+ "]=" +:+ x) ss) |}
               eq_refl Ht Hh eq_refl).
    + reflexivity.
    + rewrite deref_store_eq. unfold manual_fields.
      cbn [_build rbind len length Nat.ltb Nat.leb _encode _encode_list].
      rewrite _encode_list_from_strs. cbn [rbind postfields]. rewrite app_nil_r.
      do 3 f_equal.
      apply imap_ext. intros i x _. simpl. now autorewrite with strings.
    + exact Hacc.
  - manual_call lib (Factory.create f User.new) "query" "user" tok h Ht Hh.
  - manual_call lib (Factory.create f Project.new) "query" "project" tok h Ht Hh.
  - manual_call lib (Factory.create f Project.new) "query" "project" tok h Ht Hh.
  - manual_call lib (Factory.create f Conpherence.new) "querythread" "conpherence"
      tok h Ht Hh.
Qed.

Lemma sequence_methods_witness :
  sent (User.by_phids scripted_library
          (Factory.create {| Factory.token := Some "api-abc";
                             Factory.host := Some "https://phab.example" |}
             User.new)
          (VList (VStr <$> ["PHID-A"; "PHID-B"])) (world_with VNone "reply-ok")).2
  = [{| url := "https://phab.example/api/user.query";
        postfields := "api.token=api-abc&phids[0]=PHID-A&phids[1]=PHID-B" |}].
Proof.
  rewrite (proj1 (sequence_methods scripted_library
                    {| Factory.token := Some "api-abc";
                       Factory.host := Some "https://phab.example" |}
                    "api-abc" "https://phab.example" ["PHID-A"; "PHID-B"] "x"
                    (world_with VNone "reply-ok") eq_refl eq_refl)
             ltac:(split; vm_compute; reflexivity)).
  vm_compute. reflexivity.
Defined.

(** X22: an object of any of the nine endpoint classes always has its prefix,
    so it never fails for a missing prefix. Straight from its constructor, or
    from a factory without a token, every call of it raises ["no token
    given..."]; from a factory with a token but no host, ["no host
    given..."]; and an object the factory makes of the base class itself
    raises ["no prefix configured"]. In each case the world is untouched. *)
Theorem endpoints_need_credentials lib (new : unit -> ConduitBase) f tok
    op l mp w :
  new ∈ endpoint_classes ->
  prefix (new tt) <> None
  /\ prefix (Factory.create f new) = prefix (new tt)
  /\ go lib (new tt) op l mp w = (Raise (Exception (VStr "no token given...")), w)
  /\ (Factory.token f = None ->
      go lib (Factory.create f new) op l mp w
      = (Raise (Exception (VStr "no token given...")), w))
  /\ (Factory.token f = Some tok -> Factory.host f = None ->
      go lib (Factory.create f new) op l mp w
      = (Raise (Exception (VStr "no host given...")), w))
  /\ go lib (Factory.create f (fun _ => ConduitBase_class)) op l mp w
     = (Raise (Exception (VStr "no prefix configured")), w).
Proof.
  intros Hin. unfold endpoint_classes in Hin.
  assert (Hp : exists p, prefix (new tt) = Some p /\ token (new tt) = None).
  { repeat (apply elem_of_cons in Hin as [->|Hin]; [eexists; split; reflexivity|]).
    now apply elem_of_nil in Hin. }
  destruct Hp as (p & Hp & Htok).
  split; [congruence|]. split; [reflexivity|]. split; [|split; [|split]].
  - unfold go, _go, _execute. now rewrite Hp, Htok.
  - intros Ht. unfold go, _go, _execute. simpl. now rewrite Hp, Ht.
  - intros Ht Hh. unfold go, _go, _execute. simpl. now rewrite Hp, Ht, Hh.
  - reflexivity.
Qed.

Lemma endpoints_need_credentials_witness :
  go scripted_library (Maniphest.new tt) "query" 1%positive true
     (world_with VNone "reply-ok")
  = (Raise (Exception (VStr "no token given...")), world_with VNone "reply-ok").
Proof.
  refine (proj1 (proj2 (proj2 (endpoints_need_credentials scripted_library
           Maniphest.new {| Factory.token := None; Factory.host := None |} "t"
           "query" 1%positive true (world_with VNone "reply-ok") _)))).
  unfold endpoint_classes. do 8 apply list_elem_of_further. apply list_elem_of_here.
Defined.

(** * Composition in the encoder *)

(** X23: the encoder works entry by entry: the pairs of a mapping whose
    entries are those of [xs] followed by those of [ys] are the pairs of
    [xs] followed by the pairs of [ys], under the same prefix and flag, and
    it raises when either part raises. *)
Theorem encode_mapping_concat (p : string) (xs ys : list (string * value))
    (n : bool) :
  _encode p (VDict (xs ++ ys)) n =
  do a <- _encode p (VDict xs) n;
  do b <- _encode p (VDict ys) n;
  Ok (a ++ b).
Proof. rewrite !_encode_dict_eq. apply _encode_dict_app. Qed.

Lemma _encode_list_from_tails i vs :
  forallb is_str vs = true ->
  exists tails, forall p,
    _encode_list_from i p vs = Ok ((fun t => p +:+ t) <$> tails).
Proof.
  revert i. induction vs as [|v vs IH]; intros i H.
  - exists []. reflexivity.
  - simpl in H. apply andb_prop in H as [Hv Hvs].
    destruct v as [| | | s | |]; try discriminate.
    destruct (IH (S i) Hvs) as [tails Ht].
    exists (("[" +:+ str i +:+ "]=" +:+ s) :: tails). intros p.
    simpl. rewrite Ht. simpl. do 2 f_equal. now autorewrite with strings.
Qed.

(** X24: below the top level the field names are relative to the prefix: for
    a tree the encoder accepts there is one list of tails such that, under
    every prefix, the pairs are the prefix followed by these tails. So the
    same subtree under another name gives the same pairs with the name
    exchanged. *)
Theorem encode_relative_to_prefix (v : value) :
  encodable v = true ->
  exists tails, forall p, _encode p v true = Ok ((fun t => p +:+ t) <$> tails).
Proof.
  induction v as [| b | z | s | vs _ | kvs IH] using value_ind'; intros H;
    try discriminate.
  - exists ["=" +:+ s]. reflexivity.
  - simpl in H. destruct (_encode_list_from_tails 0 vs H) as [tails Ht].
    exists tails. intros p. apply Ht.
  - revert H. induction IH as [|[k x] kvs Hx _ IHk]; intros H.
    + exists []. reflexivity.
    + rewrite encodable_dict_cons in H. apply andb_prop in H as [H1 H2].
      simpl in Hx. destruct (Hx H1) as [tx Htx]. destruct (IHk H2) as [tk Htk].
      exists (((fun t => ("[" +:+ k +:+ "]") +:+ t) <$> tx) ++ tk). intros p.
      rewrite _encode_dict_eq. simpl. rewrite Htx.
      rewrite <- _encode_dict_eq, Htk. simpl.
      rewrite fmap_app, <- list_fmap_compose. do 2 f_equal.
      apply list_fmap_ext. intros j t _. simpl. now autorewrite with strings.
Qed.

Lemma encode_relative_to_prefix_witness :
  exists tails, forall p,
    _encode p (VDict [("subscribers", VList [VStr "P"; VStr "Q"])]) true
    = Ok ((fun t => p +:+ t) <$> tails).
Proof.
  apply (encode_relative_to_prefix
           (VDict [("subscribers", VList [VStr "P"; VStr "Q"])])).
  reflexivity.
Defined.
